(** * The interview session controller ([Agent]) and the feedback page

    A shallow embedding of [src/components/Agent.tsx] and of the feedback
    page ([app/dashboard/interview/[id]/feedback/page.tsx]).

    The React component is modelled as a record of its [useState] cells.
    Every event handler is a function from the component state to the new
    state and the list of requests it issues to the outside world (data
    store, voice agent, feedback action, router, console), in program
    order.  In [step] an [async] handler is run to completion, with the
    responses to its awaited calls supplied by the event that invokes it;
    the one continuation that is not awaited by its caller (the rest of
    [handleGenerateFeedback] after [createFeedback]) is an event of its own.
    [asyncStep] refines this: it splits [handleCall] at its three awaits, so
    that invocations overlap with other events and with each other.

    The model describes the component while it is mounted: [router.push] is
    recorded as a request, and the listeners registered on the voice agent
    stay registered.

    Numbers are JavaScript numbers (IEEE 754 binary64) in the source.  The
    credit balance and the experience counter are integers in the data
    store; an integer-valued number is modelled as the [Z] it denotes, and
    the result of an addition or subtraction is rounded to the nearest
    number the format has ([jsRound]). *)

From Stdlib Require Import ZArith String List Bool Lia.
Import ListNotations.

Local Open Scope Z_scope.
Local Open Scope list_scope.

(** ** Data model *)

Inductive CallStatus : Type :=
| INACTIVE
| CONNECTING
| ACTIVE
| FINISHED.

Definition CallStatus_eqb (a b : CallStatus) : bool :=
  match a, b with
  | INACTIVE, INACTIVE => true
  | CONNECTING, CONNECTING => true
  | ACTIVE, ACTIVE => true
  | FINISHED, FINISHED => true
  | _, _ => false
  end.

Inductive Role : Type :=
| user
| system
| assistant.

(** [interface SavedMessage] *)
Record SavedMessage : Type := mkSavedMessage {
  role : Role;
  content : string
}.

(** A message of the voice agent's event stream, as the handler reads it:
    [message.type], [message.transcriptType] (absent on messages that are
    not transcripts), [message.role] and [message.transcript]. *)
Record Message : Type := mkMessage {
  msg_type : string;
  transcriptType : option string;
  msg_role : Role;
  transcript : string
}.

(** [AgentProps], the fields the controller reads. *)
Record AgentProps : Type := mkProps {
  userName : string;
  userId : option string;
  interviewId : option string;
  feedbackId : option string;
  type : string;
  questions : option (list string)
}.

(** The [useState] cells of the component. *)
Record AgentState : Type := mkState {
  callStatus : CallStatus;
  messages : list SavedMessage;
  isSpeaking : bool;
  lastMessage : string;
  credits : option Z;
  isLoadingCredits : bool
}.

Definition initialState : AgentState :=
  {| callStatus := INACTIVE;
     messages := [];
     isSpeaking := false;
     lastMessage := EmptyString;
     credits := None;
     isLoadingCredits := true |}.

Definition setCallStatus (v : CallStatus) (s : AgentState) : AgentState :=
  {| callStatus := v;
     messages := messages s;
     isSpeaking := isSpeaking s;
     lastMessage := lastMessage s;
     credits := credits s;
     isLoadingCredits := isLoadingCredits s |}.

Definition setMessages (f : list SavedMessage -> list SavedMessage)
    (s : AgentState) : AgentState :=
  {| callStatus := callStatus s;
     messages := f (messages s);
     isSpeaking := isSpeaking s;
     lastMessage := lastMessage s;
     credits := credits s;
     isLoadingCredits := isLoadingCredits s |}.

Definition setIsSpeaking (v : bool) (s : AgentState) : AgentState :=
  {| callStatus := callStatus s;
     messages := messages s;
     isSpeaking := v;
     lastMessage := lastMessage s;
     credits := credits s;
     isLoadingCredits := isLoadingCredits s |}.

Definition setLastMessage (v : string) (s : AgentState) : AgentState :=
  {| callStatus := callStatus s;
     messages := messages s;
     isSpeaking := isSpeaking s;
     lastMessage := v;
     credits := credits s;
     isLoadingCredits := isLoadingCredits s |}.

Definition setCredits (f : option Z -> option Z) (s : AgentState)
    : AgentState :=
  {| callStatus := callStatus s;
     messages := messages s;
     isSpeaking := isSpeaking s;
     lastMessage := lastMessage s;
     credits := f (credits s);
     isLoadingCredits := isLoadingCredits s |}.

Definition setIsLoadingCredits (v : bool) (s : AgentState) : AgentState :=
  {| callStatus := callStatus s;
     messages := messages s;
     isSpeaking := isSpeaking s;
     lastMessage := lastMessage s;
     credits := credits s;
     isLoadingCredits := v |}.

(** ** The outside world *)

(** The [error] member of a data-store response: [None] is JavaScript's
    [null] (falsy), [Some] an error object (truthy). *)
Definition PgError : Type := string.

(** A row of [profiles] as selected by [select("experience")]. *)
Record ProfileRow : Type := mkProfileRow {
  experience : option Z
}.

(** The responses to the three awaited data-store calls of [handleCall]. *)
Record CallResponses : Type := mkCallResponses {
  error : option PgError;
  profileData : option ProfileRow;
  fetchExpError : option PgError;
  experror : option PgError
}.

(** The response to the data-store call of [fetchCredits]:
    [data.credits] and [error]. *)
Record CreditsResponse : Type := mkCreditsResponse {
  data_credits : option Z;
  credits_error : option PgError
}.

(** What [createFeedback] resolves to: [{ success, feedbackId }]. *)
Record FeedbackResult : Type := mkFeedbackResult {
  success : bool;
  result_feedbackId : option string
}.

(** Requests issued by the controller, each with the outcome the data store
    gave where the code reads one. *)
Inductive Effect : Type :=
| UsersUpdateCredits (value : Z) (id : option string) (err : option PgError)
| ProfilesSelectExperience (id : option string) (err : option PgError)
| ProfilesUpdateExperience (value : Z) (id : option string)
    (err : option PgError)
| VapiStartWorkflow (username : string) (userid : option string)
| VapiStartInterviewer (formattedQuestions : string)
| VapiStop
| CreateFeedback (interview user : option string)
    (transcriptTurns : list SavedMessage) (existing : option string)
| RouterPush (route : string)
| ConsoleLog (text : string)
| ConsoleError (text : string).

(** JavaScript truthiness of an optional string: [undefined] and the empty
    string are falsy. *)
Definition truthy (o : option string) : bool :=
  match o with
  | Some EmptyString => false
  | Some _ => true
  | None => false
  end.

(** An optional string inside a template literal. *)
Definition interpolate (o : option string) : string :=
  match o with
  | Some v => v
  | None => "undefined"%string
  end.

Definition newline : string := String (Ascii.ascii_of_nat 10) EmptyString.

Definition dashboardRoute : string := "/dashboard"%string.

(** [`/dashboard/interview/${interviewId}/feedback`] *)
Definition feedbackRoute (p : AgentProps) : string :=
  ("/dashboard/interview/" ++ interpolate (interviewId p) ++ "/feedback")%string.

(** ** Arithmetic on JavaScript numbers

    Integers up to [2^53] in magnitude are numbers of the format.  Above,
    the numbers with [2^(52+e) <= |z| < 2^(53+e)] are the multiples of
    [2^e]; a result is rounded to the nearest of them, a tie going to the
    even multiple.  (Magnitudes stay far below the largest number, about
    [2^1024]: subtracting 1 or adding 20 never overflows.) *)
Definition jsRound (z : Z) : Z :=
  let a := Z.abs z in
  if a <=? 2 ^ 53 then z
  else
    let u := 2 ^ (Z.log2 a - 52) in
    let q := a / u in
    let r := a mod u in
    let q' :=
      if 2 * r <? u then q
      else if u <? 2 * r then q + 1
      else if Z.even q then q else q + 1 in
    Z.sgn z * (q' * u).

(** [a - b] and [a + b] on numbers. *)
Definition jsSub (a b : Z) : Z := jsRound (a - b).

Definition jsAdd (a b : Z) : Z := jsRound (a + b).

(** ** Event handlers *)

(** [onMessage], lines 73-78. *)
Definition isFinalTranscript (m : Message) : bool :=
  String.eqb (msg_type m) "transcript" &&
  match transcriptType m with
  | Some t => String.eqb t "final"
  | None => false
  end.

Definition newMessage (m : Message) : SavedMessage :=
  {| role := msg_role m; content := transcript m |}.

Definition onMessage (m : Message) (s : AgentState) : AgentState :=
  if isFinalTranscript m
  then setMessages (fun prev => prev ++ [newMessage m]) s
  else s.

(** [profileData?.experience ?? 0] *)
Definition fetchedExperience (r : CallResponses) : Z :=
  match profileData r with
  | Some row =>
      match experience row with
      | Some e => e
      | None => 0
      end
  | None => 0
  end.

(** [(profileData?.experience ?? 0) + 20] *)
Definition newExperience (r : CallResponses) : Z :=
  jsAdd (fetchedExperience r) 20.

(** [questions.map((question) => `- ${question}`).join("\n")], guarded by
    [if (questions)]. *)
Definition formattedQuestions (p : AgentProps) : string :=
  match questions p with
  | Some qs => String.concat newline (map (fun q => ("- " ++ q)%string) qs)
  | None => EmptyString
  end.

Definition vapiStart (p : AgentProps) : Effect :=
  if String.eqb (type p) "generate"
  then VapiStartWorkflow (userName p) (userId p)
  else VapiStartInterviewer (formattedQuestions p).

(** [handleCall], lines 144-205, for an invocation whose three awaits are
    answered before any other event is handled: the state the click saw is
    the state it updates.  The [credits] read is the state cell of the
    render that created the handler.  Invocations that overlap with other
    events, or with each other, are [asyncStep] below. *)
Definition handleCall (p : AgentProps) (r : CallResponses) (s : AgentState)
    : AgentState * list Effect :=
  match credits s with
  | None => (s, [])
  | Some c =>
      if c <=? 0 then (s, [])
      else
        let decrement :=
          UsersUpdateCredits (jsSub c 1) (userId p) (error r) in
        let fetch := ProfilesSelectExperience (userId p) (fetchExpError r) in
        match fetchExpError r with
        | Some _ =>
            (s, [decrement; fetch;
                 ConsoleError "Failed to fetch latest experience:"])
        | None =>
            let increment :=
              ProfilesUpdateExperience (newExperience r) (userId p)
                (experror r) in
            match experror r with
            | Some _ =>
                (s, [decrement; fetch; increment;
                     ConsoleError "Failed to update experience:"])
            | None =>
                match error r with
                | Some _ =>
                    (s, [decrement; fetch; increment;
                         ConsoleError "Failed to decrement credits:"])
                | None =>
                    (setCallStatus CONNECTING
                       (setCredits
                          (fun prev =>
                             match prev with
                             | Some v => Some (jsSub v 1)
                             | None => prev
                             end) s),
                     [decrement; fetch; increment; vapiStart p])
                end
            end
        end
  end.

(** [handleDisconnect], lines 207-210. *)
Definition handleDisconnect (s : AgentState) : AgentState * list Effect :=
  (setCallStatus FINISHED s, [VapiStop]).

(** The continuation of [fetchCredits] (lines 44-62) once the data store
    has answered.  The request is only made when [userId] is truthy. *)
Definition fetchCreditsDone (p : AgentProps) (r : CreditsResponse)
    (s : AgentState) : AgentState * list Effect :=
  if truthy (userId p)
  then
    match credits_error r with
    | Some _ =>
        (setIsLoadingCredits false s, [ConsoleError "Failed to fetch credits"])
    | None =>
        (setIsLoadingCredits false (setCredits (fun _ => data_credits r) s),
         [])
    end
  else (s, []).

(** ** The mounted component

    [agent] holds the state cells; [inflight] counts the [createFeedback]
    promises that have been created and have not settled yet. *)
Record World : Type := mkWorld {
  agent : AgentState;
  inflight : nat
}.

Definition initialWorld : World :=
  {| agent := initialState; inflight := 0%nat |}.

(** The body of the effect of lines 111-142, including the synchronous part
    of [handleGenerateFeedback] (up to its [await]). *)
Definition feedbackEffect (p : AgentProps) (w : World)
    : World * list Effect :=
  let s := agent w in
  let s1 :=
    match messages s with
    | [] => s
    | m :: ms => setLastMessage (content (last ms m)) s
    end in
  match callStatus s with
  | FINISHED =>
      if String.eqb (type p) "generate"
      then ({| agent := s1; inflight := inflight w |},
            [RouterPush dashboardRoute])
      else ({| agent := s1; inflight := S (inflight w) |},
            [ConsoleLog "handleGenerateFeedback";
             CreateFeedback (interviewId p) (userId p) (messages s)
               (feedbackId p);
             RouterPush (feedbackRoute p)])
  | _ => ({| agent := s1; inflight := inflight w |}, [])
  end.

(** The rest of [handleGenerateFeedback] (lines 126-131), run when the
    promise of [createFeedback] resolves to [r]. *)
Definition feedbackSettled (p : AgentProps) (r : FeedbackResult) (w : World)
    : World * list Effect :=
  match inflight w with
  | O => (w, [])
  | S n =>
      ({| agent := agent w; inflight := n |},
       if success r && truthy (result_feedbackId r)
       then [RouterPush (feedbackRoute p)]
       else [ConsoleLog "Error saving feedback"; RouterPush dashboardRoute])
  end.

(** A promise of [createFeedback] that rejects: the call of line 119 is
    inside no [try], and the promise of [handleGenerateFeedback] is dropped
    at line 138, so the rest of the function does not run and nobody is
    told. *)
Definition feedbackRejected (w : World) : World * list Effect :=
  match inflight w with
  | O => (w, [])
  | S n => ({| agent := agent w; inflight := n |}, [])
  end.

(** Everything that can happen to the mounted component: the six events of
    the voice agent (lines 94-99), the two buttons (lines 270-294), and the
    settling of the two kinds of pending requests, a submission either
    resolving to a result or rejecting. *)
Inductive Event : Type :=
| EvCallStart
| EvCallEnd
| EvMessage (m : Message)
| EvSpeechStart
| EvSpeechEnd
| EvError (e : string)
| ClickCall (r : CallResponses)
| ClickEnd
| CreditsFetched (r : CreditsResponse)
| FeedbackSettled (r : FeedbackResult)
| FeedbackRejected.

(** The Call button is rendered when [callStatus !== "ACTIVE"] and is
    [disabled] when [credits === 0 || isLoadingCredits]. *)
Definition callButtonEnabled (s : AgentState) : bool :=
  negb (CallStatus_eqb (callStatus s) ACTIVE) &&
  negb (match credits s with
        | Some c => c =? 0
        | None => false
        end || isLoadingCredits s).

(** The End button is rendered when [callStatus === "ACTIVE"]. *)
Definition endButtonShown (s : AgentState) : bool :=
  CallStatus_eqb (callStatus s) ACTIVE.

Definition withAgent (w : World) (r : AgentState * list Effect)
    : World * list Effect :=
  ({| agent := fst r; inflight := inflight w |}, snd r).

(** The handler an event runs. *)
Definition handle (p : AgentProps) (ev : Event) (w : World)
    : World * list Effect :=
  let s := agent w in
  match ev with
  | EvCallStart => withAgent w (setCallStatus ACTIVE s, [])
  | EvCallEnd => withAgent w (setCallStatus FINISHED s, [])
  | EvMessage m => withAgent w (onMessage m s, [])
  | EvSpeechStart =>
      withAgent w (setIsSpeaking true s, [ConsoleLog "speech start"])
  | EvSpeechEnd =>
      withAgent w (setIsSpeaking false s, [ConsoleLog "speech end"])
  | EvError _ => withAgent w (s, [ConsoleLog "Error:"])
  | ClickCall r =>
      if callButtonEnabled s then withAgent w (handleCall p r s) else (w, [])
  | ClickEnd =>
      if endButtonShown s then withAgent w (handleDisconnect s) else (w, [])
  | CreditsFetched r => withAgent w (fetchCreditsDone p r s)
  | FeedbackSettled r => feedbackSettled p r w
  | FeedbackRejected => feedbackRejected w
  end.

(** The dependency list of the effect is
    [[messages, callStatus, feedbackId, interviewId, router, type, userId]];
    the props and the router are fixed while the component is mounted.
    [messages] is compared by reference: [onMessage] builds a new array
    exactly when it appends a turn, which is when the length changes. *)
Definition depsChanged (s s' : AgentState) : bool :=
  negb (CallStatus_eqb (callStatus s) (callStatus s')) ||
  negb (Nat.eqb (length (messages s)) (length (messages s'))).

(** One event: the handler, the render, and the effect when a dependency
    changed. *)
Definition step (p : AgentProps) (ev : Event) (w : World)
    : World * list Effect :=
  let '(w1, t1) := handle p ev w in
  if depsChanged (agent w) (agent w1)
  then let '(w2, t2) := feedbackEffect p w1 in (w2, t1 ++ t2)
  else (w1, t1).

Fixpoint run (p : AgentProps) (evs : list Event) (w : World)
    : World * list Effect :=
  match evs with
  | [] => (w, [])
  | ev :: rest =>
      let '(w1, t1) := step p ev w in
      let '(w2, t2) := run p rest w1 in
      (w2, t1 ++ t2)
  end.

(** ** Invocations of [handleCall] that overlap

    Between the click and lines 181-182 the handler waits three times.
    While it waits the component handles other events, other clicks on
    Call included.  A pending invocation remembers the balance its closure
    captured, which answers it has had, and what it computed from them; it
    reads the state cells again only in the updater of line 181.

    A request is entered in the trace, with its outcome, when its answer
    is handled. *)
Inductive Pending : Type :=
| AwaitDecrement (c : Z)
| AwaitFetch (c : Z) (err : option PgError)
| AwaitUpdate (c : Z) (err : option PgError) (newExp : Z)
| Returned.

Record AsyncWorld : Type := mkAsyncWorld {
  mounted : World;
  calls : list Pending
}.

Definition initialAsyncWorld : AsyncWorld :=
  {| mounted := initialWorld; calls := [] |}.

(** [Sync ev] is an event of the component as before, an unbroken
    [ClickCall] included; [CallClicked] is a click on Call up to the first
    [await]; [CallAnswered i r] is the answer to the request the [i]-th
    invocation is waiting for, of which it reads the members that belong
    to that request. *)
Inductive AsyncEvent : Type :=
| Sync (ev : Event)
| CallClicked
| CallAnswered (i : nat) (r : CallResponses).

Fixpoint setCall (i : nat) (x : Pending) (l : list Pending) : list Pending :=
  match l, i with
  | [], _ => []
  | _ :: rest, O => x :: rest
  | y :: rest, S j => y :: setCall j x rest
  end.

(** The render after a handler, with the effect when a dependency
    changed (as in [step]). *)
Definition withEffect (p : AgentProps) (w : World)
    (h : World * list Effect) : World * list Effect :=
  let '(w1, t1) := h in
  if depsChanged (agent w) (agent w1)
  then let '(w2, t2) := feedbackEffect p w1 in (w2, t1 ++ t2)
  else (w1, t1).

(** Line 145 and the evaluation of [credits - 1] for the first request. *)
Definition callClicked (aw : AsyncWorld) : AsyncWorld * list Effect :=
  let s := agent (mounted aw) in
  if callButtonEnabled s
  then
    match credits s with
    | None => (aw, [])
    | Some c =>
        if c <=? 0 then (aw, [])
        else ({| mounted := mounted aw;
                 calls := calls aw ++ [AwaitDecrement c] |}, [])
    end
  else (aw, []).

(** Lines 148-204, one [await] at a time. *)
Definition callAnswered (p : AgentProps) (i : nat) (r : CallResponses)
    (aw : AsyncWorld) : AsyncWorld * list Effect :=
  let w := mounted aw in
  match nth_error (calls aw) i with
  | Some (AwaitDecrement c) =>
      ({| mounted := w;
          calls := setCall i (AwaitFetch c (error r)) (calls aw) |},
       [UsersUpdateCredits (jsSub c 1) (userId p) (error r)])
  | Some (AwaitFetch c err) =>
      let fetch := ProfilesSelectExperience (userId p) (fetchExpError r) in
      match fetchExpError r with
      | Some _ =>
          ({| mounted := w; calls := setCall i Returned (calls aw) |},
           [fetch; ConsoleError "Failed to fetch latest experience:"])
      | None =>
          ({| mounted := w;
              calls := setCall i (AwaitUpdate c err (newExperience r))
                         (calls aw) |},
           [fetch])
      end
  | Some (AwaitUpdate c err newExp) =>
      let increment :=
        ProfilesUpdateExperience newExp (userId p) (experror r) in
      let done := setCall i Returned (calls aw) in
      match experror r with
      | Some _ =>
          ({| mounted := w; calls := done |},
           [increment; ConsoleError "Failed to update experience:"])
      | None =>
          match err with
          | Some _ =>
              ({| mounted := w; calls := done |},
               [increment; ConsoleError "Failed to decrement credits:"])
          | None =>
              let h :=
                ({| agent :=
                      setCallStatus CONNECTING
                        (setCredits
                           (fun prev =>
                              match prev with
                              | Some v => Some (jsSub v 1)
                              | None => prev
                              end) (agent w));
                    inflight := inflight w |},
                 [increment; vapiStart p]) in
              ({| mounted := fst (withEffect p w h); calls := done |},
               snd (withEffect p w h))
          end
      end
  | Some Returned => (aw, [])
  | None => (aw, [])
  end.

Definition asyncStep (p : AgentProps) (aev : AsyncEvent) (aw : AsyncWorld)
    : AsyncWorld * list Effect :=
  match aev with
  | Sync ev =>
      ({| mounted := fst (step p ev (mounted aw)); calls := calls aw |},
       snd (step p ev (mounted aw)))
  | CallClicked => callClicked aw
  | CallAnswered i r => callAnswered p i r aw
  end.

Fixpoint asyncRun (p : AgentProps) (aevs : list AsyncEvent) (aw : AsyncWorld)
    : AsyncWorld * list Effect :=
  match aevs with
  | [] => (aw, [])
  | aev :: rest =>
      let '(aw1, t1) := asyncStep p aev aw in
      let '(aw2, t2) := asyncRun p rest aw1 in
      (aw2, t1 ++ t2)
  end.

(** A credit update the data store has applied. *)
Definition isCharge (e : Effect) : bool :=
  match e with
  | UsersUpdateCredits _ _ None => true
  | _ => false
  end.

(** A pending invocation whose credit update has been applied. *)
Definition isPaid (c : Pending) : bool :=
  match c with
  | AwaitFetch _ None => true
  | AwaitUpdate _ None _ => true
  | _ => false
  end.

(** ** Observations on traces *)

Definition isSubmission (e : Effect) : bool :=
  match e with
  | CreateFeedback _ _ _ _ => true
  | _ => false
  end.

Definition isVapiStart (e : Effect) : bool :=
  match e with
  | VapiStartWorkflow _ _ => true
  | VapiStartInterviewer _ => true
  | _ => false
  end.

Definition isWrite (e : Effect) : bool :=
  match e with
  | UsersUpdateCredits _ _ _ => true
  | ProfilesUpdateExperience _ _ _ => true
  | _ => false
  end.

Definition isPush (e : Effect) : bool :=
  match e with
  | RouterPush _ => true
  | _ => false
  end.

Definition submissions (t : list Effect) : nat :=
  length (filter isSubmission t).

(** The turns a list of events contributes to the transcript. *)
Definition turnsOf (evs : list Event) : list SavedMessage :=
  flat_map
    (fun ev =>
       match ev with
       | EvMessage m => if isFinalTranscript m then [newMessage m] else []
       | _ => []
       end) evs.

(** An event after which a finished session stays as it is: it neither
    appends a turn nor can it move the status away from [FINISHED]. *)
Definition quiet (ev : Event) : bool :=
  match ev with
  | EvMessage m => negb (isFinalTranscript m)
  | EvCallStart => false
  | ClickCall _ => false
  | _ => true
  end.


(** The user's row in the data store.  An update that answers without an
    error has been applied; one that answers with an error has not. *)
Record Store : Type := mkStore {
  db_credits : option Z;
  db_experience : option Z
}.

Definition applyEffect (st : Store) (e : Effect) : Store :=
  match e with
  | UsersUpdateCredits v _ None =>
      {| db_credits := Some v; db_experience := db_experience st |}
  | ProfilesUpdateExperience v _ None =>
      {| db_credits := db_credits st; db_experience := Some v |}
  | _ => st
  end.

Definition commit (t : list Effect) (st : Store) : Store :=
  fold_left applyEffect t st.

(** ** The feedback page

    [getInterviewById] and the [FeedbackClient] component live outside this
    file's sources; the page is parametric in the record type and in the
    lookup.  [redirect] does not return: the page produces either a
    redirect or an element. *)
Section FeedbackPage.

Variable Interview : Type.

Inductive PageResult : Type :=
| Redirect (route : string)
| RenderFeedbackClient (interviewId : string) (interview : Interview).

Definition FeedbackPage (getInterviewById : string -> option Interview)
    (id : string) : PageResult :=
  match getInterviewById id with
  | None => Redirect "/dashboard"
  | Some interview => RenderFeedbackClient id interview
  end.

End FeedbackPage.

Arguments Redirect {Interview} route.
Arguments RenderFeedbackClient {Interview} interviewId interview.
Arguments FeedbackPage {Interview} getInterviewById id.

(** ** What the component renders

    The parts of the returned element (lines 212-297) that depend on the
    state: the out-of-credits banner, the speaking indicator, the line that
    shows [lastMessage], and the button under the card. *)
Inductive ActionButton : Type :=
| CallButton (disabled : bool) (pingHidden : bool) (label : string)
| EndButton.

Record View : Type := mkView {
  outOfCreditsBanner : bool;
  speakingIndicator : bool;
  transcriptLine : option string;
  actionButton : ActionButton
}.

Definition render (s : AgentState) : View :=
  {| outOfCreditsBanner :=
       match credits s with
       | Some c => c =? 0
       | None => true
       end;
     speakingIndicator := isSpeaking s;
     transcriptLine :=
       if (0 <? length (messages s))%nat then Some (lastMessage s) else None;
     actionButton :=
       if negb (CallStatus_eqb (callStatus s) ACTIVE)
       then CallButton
              (match credits s with
               | Some c => c =? 0
               | None => false
               end || isLoadingCredits s)
              (negb (CallStatus_eqb (callStatus s) CONNECTING))
              (if CallStatus_eqb (callStatus s) INACTIVE ||
                  CallStatus_eqb (callStatus s) FINISHED
               then "Call"%string
               else ". . ."%string)
       else EndButton |}.

(** ** Further observations *)

(** The requests [handleCall] sends to the data store. *)
Definition isStoreRequest (e : Effect) : bool :=
  match e with
  | UsersUpdateCredits _ _ _ => true
  | ProfilesSelectExperience _ _ => true
  | ProfilesUpdateExperience _ _ _ => true
  | _ => false
  end.

Definition isCreditsFetched (ev : Event) : bool :=
  match ev with
  | CreditsFetched _ => true
  | _ => false
  end.

(** An event that makes [onMessage] append a turn. *)
Definition appendsTurn (ev : Event) : bool :=
  match ev with
  | EvMessage m => isFinalTranscript m
  | _ => false
  end.

(** The value the latest "speech-start" or "speech-end" among the events
    gives, [b] when there is none. *)
Definition speechAfter (evs : list Event) (b : bool) : bool :=
  fold_left
    (fun acc ev =>
       match ev with
       | EvSpeechStart => true
       | EvSpeechEnd => false
       | _ => acc
       end) evs b.

(** The content of the last turn of a transcript. *)
Definition latestTurn (ms : list SavedMessage) : option string :=
  match ms with
  | [] => None
  | m :: rest => Some (content (last rest m))
  end.

(** The line agrees with the transcript: when there are turns,
    [lastMessage] is the content of the last one. *)
Definition lineInSync (s : AgentState) : Prop :=
  transcriptLine (render s) = latestTurn (messages s).

(** ** Sample inputs *)

Definition interviewProps : AgentProps :=
  {| userName := "Ada"%string;
     userId := Some "u1"%string;
     interviewId := Some "i1"%string;
     feedbackId := None;
     type := "interview"%string;
     questions := Some ["Why Rocq?"%string; "Why not?"%string] |}.

Definition generateProps : AgentProps :=
  {| userName := "Ada"%string;
     userId := Some "u1"%string;
     interviewId := None;
     feedbackId := None;
     type := "generate"%string;
     questions := None |}.

Definition okResponses : CallResponses :=
  {| error := None;
     profileData := Some {| experience := Some 40 |};
     fetchExpError := None;
     experror := None |}.

Definition withCredits (c : Z) : AgentState :=
  setCredits (fun _ => Some c) (setIsLoadingCredits false initialState).

Definition finalTurn : Message :=
  {| msg_type := "transcript"%string;
     transcriptType := Some "final"%string;
     msg_role := user;
     transcript := "hello"%string |}.

Definition partialTurn : Message :=
  {| msg_type := "transcript"%string;
     transcriptType := Some "partial"%string;
     msg_role := user;
     transcript := "hel"%string |}.

Definition okFetch : CreditsResponse :=
  {| data_credits := Some 1; credits_error := None |}.

Definition failedFeedback : FeedbackResult :=
  {| success := false; result_feedbackId := None |}.

(** A session that is ended with the End button and receives the last
    final transcript of the call after that. *)
Definition lateTranscriptSession : list Event :=
  [CreditsFetched okFetch; ClickCall okResponses; EvCallStart; ClickEnd;
   EvMessage finalTurn].

(** A store of interview records holding one interview, "i1". *)
Definition sampleInterviews (id : string) : option string :=
  if String.eqb id "i1" then Some "Frontend interview"%string else None.

(** A balance above the integers that the number format holds exactly. *)
Definition hugeBalance : Z := 9007199254740994.

Definition rejectedSubmission : list Event := [EvCallEnd; FeedbackRejected].

(** * Properties *)

(** ** The credit gate *)

Lemma jsRound_safe z : Z.abs z <= 2 ^ 53 -> jsRound z = z.
Proof.
  intros H. unfold jsRound.
  destruct (Z.leb_spec (Z.abs z) (2 ^ 53)); [reflexivity | lia].
Qed.

Lemma jsSub_safe c : 0 < c -> c <= 2 ^ 53 -> jsSub c 1 = c - 1.
Proof. intros H1 H2. apply jsRound_safe. lia. Qed.

Lemma handleCall_guard p r s :
  (credits s = None \/ exists c, credits s = Some c /\ c <= 0) ->
  handleCall p r s = (s, []).
Proof.
  intros [Hnull | [c [Hc Hle]]]; unfold handleCall.
  - now rewrite Hnull.
  - rewrite Hc. destruct (Z.leb_spec c 0) as [_ | Hgt]; [reflexivity | lia].
Qed.

Lemma handleCall_passes_guard p r s c :
  credits s = Some c -> 0 < c ->
  handleCall p r s =
    match fetchExpError r with
    | Some _ =>
        (s, [UsersUpdateCredits (jsSub c 1) (userId p) (error r);
             ProfilesSelectExperience (userId p) (fetchExpError r);
             ConsoleError "Failed to fetch latest experience:"])
    | None =>
        match experror r with
        | Some _ =>
            (s, [UsersUpdateCredits (jsSub c 1) (userId p) (error r);
                 ProfilesSelectExperience (userId p) (fetchExpError r);
                 ProfilesUpdateExperience (newExperience r) (userId p)
                   (experror r);
                 ConsoleError "Failed to update experience:"])
        | None =>
            match error r with
            | Some _ =>
                (s, [UsersUpdateCredits (jsSub c 1) (userId p) (error r);
                     ProfilesSelectExperience (userId p) (fetchExpError r);
                     ProfilesUpdateExperience (newExperience r) (userId p)
                       (experror r);
                     ConsoleError "Failed to decrement credits:"])
            | None =>
                (setCallStatus CONNECTING
                   (setCredits (fun _ => Some (jsSub c 1)) s),
                 [UsersUpdateCredits (jsSub c 1) (userId p) (error r);
                  ProfilesSelectExperience (userId p) (fetchExpError r);
                  ProfilesUpdateExperience (newExperience r) (userId p)
                    (experror r);
                  vapiStart p])
            end
        end
    end.
Proof.
  intros Hc Hpos. unfold handleCall. rewrite Hc.
  destruct (Z.leb_spec c 0) as [Hle | _]; [lia |].
  destruct (fetchExpError r), (experror r), (error r); try reflexivity.
  unfold setCredits, setCallStatus; cbn. now rewrite Hc.
Qed.

Lemma vapiStart_isWrite p : isWrite (vapiStart p) = false.
Proof. unfold vapiStart. now destruct (String.eqb (type p) "generate"). Qed.

Lemma vapiStart_commit p st : applyEffect st (vapiStart p) = st.
Proof. unfold vapiStart. now destruct (String.eqb (type p) "generate"). Qed.

(** C1.  With a balance that is null or not positive, [handleCall] returns
    at its guard: it issues no request at all (no credit update, no
    experience update, no voice-call start) and leaves every state cell as
    it was, so a status of INACTIVE stays INACTIVE.  The same holds when the
    handler is reached through the Call button. *)
Theorem handleCall_rejects_without_credit p r s :
  (credits s = None \/ exists c, credits s = Some c /\ c <= 0) ->
  handleCall p r s = (s, []) /\
  (callStatus s = INACTIVE ->
   callStatus (fst (handleCall p r s)) = INACTIVE) /\
  (forall n,
     step p (ClickCall r) {| agent := s; inflight := n |} =
     ({| agent := s; inflight := n |}, [])).
Proof.
  intros H. pose proof (handleCall_guard p r s H) as G.
  split; [exact G |]. split.
  - now rewrite G.
  - intros n. unfold step, handle; cbn.
    destruct (callButtonEnabled s); [rewrite G |]; cbn.
    + replace (depsChanged s s) with false; [reflexivity |].
      unfold depsChanged. rewrite Nat.eqb_refl.
      now destruct (callStatus s).
    + replace (depsChanged s s) with false; [reflexivity |].
      unfold depsChanged. rewrite Nat.eqb_refl.
      now destruct (callStatus s).
Qed.

Lemma handleCall_rejects_without_credit_witness :
  handleCall interviewProps okResponses (withCredits 0) = (withCredits 0, []).
Proof.
  apply (handleCall_rejects_without_credit interviewProps okResponses
           (withCredits 0)).
  right. exists 0. split; [reflexivity | lia].
Defined.

(** C2, as claimed, fails above the integers the number format holds
    exactly: with a balance of 9007199254740994 read and every call
    answering without error, [credits - 1] is 9007199254740992, two below
    the balance read; and a fetched experience of 9007199254740991 is
    written back as 9007199254741012, which is 21 more. *)
Lemma huge_balance_drops_by_two :
  filter isWrite
    (snd (handleCall interviewProps
            {| error := None;
               profileData := Some {| experience := Some 9007199254740991 |};
               fetchExpError := None;
               experror := None |}
            (withCredits hugeBalance))) =
  [UsersUpdateCredits (hugeBalance - 2) (userId interviewProps) None;
   ProfilesUpdateExperience (9007199254740991 + 21) (userId interviewProps)
     None].
Proof. reflexivity. Qed.

(** C2, amended.  When the balance read is positive and at most 2^53, the
    fetched experience (0 when the row or the field is null) plus 20 is at
    most 2^53 in magnitude, and the three data-store calls answer without
    error, [handleCall] issues exactly two writes, in this order: the
    credit balance as the balance read minus 1, and the experience counter
    as the value just fetched plus 20.  It then moves to CONNECTING and
    starts the voice call.  On the user's row the two writes leave exactly
    these values. *)
Theorem handleCall_success_writes p r s c :
  credits s = Some c -> 0 < c -> c <= 2 ^ 53 ->
  Z.abs (fetchedExperience r + 20) <= 2 ^ 53 ->
  error r = None -> fetchExpError r = None -> experror r = None ->
  filter isWrite (snd (handleCall p r s)) =
    [UsersUpdateCredits (c - 1) (userId p) None;
     ProfilesUpdateExperience (fetchedExperience r + 20) (userId p) None] /\
  (forall e, profileData r = Some (mkProfileRow (Some e)) ->
             fetchedExperience r + 20 = e + 20) /\
  snd (handleCall p r s) =
    [UsersUpdateCredits (c - 1) (userId p) None;
     ProfilesSelectExperience (userId p) None;
     ProfilesUpdateExperience (fetchedExperience r + 20) (userId p) None;
     vapiStart p] /\
  callStatus (fst (handleCall p r s)) = CONNECTING /\
  credits (fst (handleCall p r s)) = Some (c - 1) /\
  (forall st, commit (snd (handleCall p r s)) st =
              {| db_credits := Some (c - 1);
                 db_experience := Some (fetchedExperience r + 20) |}).
Proof.
  intros Hc Hpos Hmax Hexp He Hf Hx.
  rewrite (handleCall_passes_guard p r s c Hc Hpos), Hf, Hx, He.
  unfold newExperience, jsAdd. rewrite (jsRound_safe _ Hexp).
  rewrite (jsSub_safe c Hpos Hmax).
  cbn [fst snd filter isWrite].
  rewrite vapiStart_isWrite.
  repeat split; try reflexivity.
  - intros e Hrow. unfold fetchedExperience. now rewrite Hrow.
  - intros st. unfold commit; cbn [fold_left].
    now rewrite vapiStart_commit.
Qed.

Lemma handleCall_success_writes_witness :
  filter isWrite (snd (handleCall interviewProps okResponses (withCredits 3))) =
  [UsersUpdateCredits 2 (userId interviewProps) None;
   ProfilesUpdateExperience 60 (userId interviewProps) None].
Proof.
  apply (handleCall_success_writes interviewProps okResponses
           (withCredits 3) 3);
    try reflexivity; vm_compute; discriminate.
Defined.

(** C3.  When the credit update or the experience update answers with an
    error, [handleCall] returns without starting the voice call and without
    touching any state cell (the status is not set to CONNECTING).  The
    only writes it has issued are the two forward updates, so on the user's
    row an update that was applied stays applied: nothing is written back.
    The values written are [credits - 1] and the fetched experience plus 20
    as JavaScript computes them, which up to 2^53 are the exact ones. *)
Theorem handleCall_failed_update_aborts p r s c :
  credits s = Some c -> 0 < c ->
  (error r <> None \/ experror r <> None) ->
  fst (handleCall p r s) = s /\
  filter isVapiStart (snd (handleCall p r s)) = [] /\
  (fetchExpError r = None ->
   filter isWrite (snd (handleCall p r s)) =
     [UsersUpdateCredits (jsSub c 1) (userId p) (error r);
      ProfilesUpdateExperience (newExperience r) (userId p) (experror r)] /\
   forall st,
     commit (snd (handleCall p r s)) st =
     {| db_credits :=
          match error r with
          | None => Some (jsSub c 1)
          | Some _ => db_credits st
          end;
        db_experience :=
          match experror r with
          | None => Some (newExperience r)
          | Some _ => db_experience st
          end |}) /\
  (c <= 2 ^ 53 -> jsSub c 1 = c - 1) /\
  (Z.abs (fetchedExperience r + 20) <= 2 ^ 53 ->
   newExperience r = fetchedExperience r + 20).
Proof.
  intros Hc Hpos Hfail.
  assert (Hexact : (c <= 2 ^ 53 -> jsSub c 1 = c - 1) /\
                   (Z.abs (fetchedExperience r + 20) <= 2 ^ 53 ->
                    newExperience r = fetchedExperience r + 20)).
  { split; [now apply jsSub_safe | apply jsRound_safe]. }
  cut (fst (handleCall p r s) = s /\
       filter isVapiStart (snd (handleCall p r s)) = [] /\
       (fetchExpError r = None ->
        filter isWrite (snd (handleCall p r s)) =
          [UsersUpdateCredits (jsSub c 1) (userId p) (error r);
           ProfilesUpdateExperience (newExperience r) (userId p)
             (experror r)] /\
        forall st,
          commit (snd (handleCall p r s)) st =
          {| db_credits :=
               match error r with
               | None => Some (jsSub c 1)
               | Some _ => db_credits st
               end;
             db_experience :=
               match experror r with
               | None => Some (newExperience r)
               | Some _ => db_experience st
               end |})).
  { intros [H1 [H2 H3]]. destruct Hexact as [E1 E2].
    split; [exact H1 | split; [exact H2 | split; [exact H3 | now split]]]. }
  rewrite (handleCall_passes_guard p r s c Hc Hpos).
  destruct (fetchExpError r) as [fe |] eqn:Hf.
  - repeat split; try reflexivity; intros; discriminate.
  - destruct (experror r) as [xe |] eqn:Hx.
    + split; [reflexivity | split; [reflexivity | intros _ ]].
      split; [reflexivity |].
      intros [dc dx]. unfold commit; cbn. now destruct (error r).
    + destruct (error r) as [ce |] eqn:He.
      * split; [reflexivity | split; [reflexivity | intros _ ]].
        split; [reflexivity |]. now intros [dc dx].
      * destruct Hfail as [H | H]; now elim H.
Qed.

Lemma handleCall_failed_update_aborts_witness :
  fst (handleCall interviewProps
         {| error := None;
            profileData := Some {| experience := Some 40 |};
            fetchExpError := None;
            experror := Some "timeout"%string |}
         (withCredits 3)) = withCredits 3 /\
  commit
    (snd (handleCall interviewProps
            {| error := None;
               profileData := Some {| experience := Some 40 |};
               fetchExpError := None;
               experror := Some "timeout"%string |}
            (withCredits 3)))
    {| db_credits := Some 3; db_experience := Some 40 |} =
  {| db_credits := Some 2; db_experience := Some 40 |}.
Proof.
  destruct (handleCall_failed_update_aborts interviewProps
              {| error := None;
                 profileData := Some {| experience := Some 40 |};
                 fetchExpError := None;
                 experror := Some "timeout"%string |}
              (withCredits 3) 3) as [Hs [_ [Hw _]]].
  - reflexivity.
  - lia.
  - right. discriminate.
  - split; [exact Hs |].
    destruct (Hw eq_refl) as [_ Hst].
    exact (Hst {| db_credits := Some 3; db_experience := Some 40 |}).
Defined.

(** ** The transcript *)

Lemma isFinalTranscript_iff m :
  isFinalTranscript m = true <->
  msg_type m = "transcript"%string /\ transcriptType m = Some "final"%string.
Proof.
  unfold isFinalTranscript. rewrite andb_true_iff, String.eqb_eq.
  destruct (transcriptType m) as [t |].
  - rewrite String.eqb_eq. split; intros [H1 H2]; split; congruence.
  - split; intros [_ H]; discriminate.
Qed.

Lemma app_singleton_neq {A} (l : list A) (x : A) : l ++ [x] <> l.
Proof.
  intros H. apply (f_equal (@length A)) in H.
  rewrite length_app in H. cbn in H. lia.
Qed.

(** C10.  [onMessage] appends a turn (built from the message's role and
    transcript) exactly when the message has type "transcript" and
    transcriptType "final"; for any other message, partial transcripts
    included, the state and its transcript list are unchanged. *)
Theorem onMessage_appends_iff_final m s :
  (messages (onMessage m s) <> messages s <->
   msg_type m = "transcript"%string /\
   transcriptType m = Some "final"%string) /\
  (isFinalTranscript m = true ->
   messages (onMessage m s) = messages s ++ [newMessage m]) /\
  (isFinalTranscript m = false -> onMessage m s = s).
Proof.
  unfold onMessage. rewrite <- isFinalTranscript_iff.
  destruct (isFinalTranscript m); cbn.
  - repeat split; try reflexivity; try discriminate.
    intros _. apply app_singleton_neq.
  - repeat split; try reflexivity; try discriminate.
    intros H. now elim H.
Qed.

Lemma onMessage_appends_iff_final_witness :
  messages (onMessage finalTurn initialState) = [newMessage finalTurn] /\
  onMessage partialTurn initialState = initialState.
Proof.
  destruct (onMessage_appends_iff_final finalTurn initialState)
    as [_ [Hfinal _]].
  destruct (onMessage_appends_iff_final partialTurn initialState)
    as [_ [_ Hother]].
  split; [exact (Hfinal eq_refl) | exact (Hother eq_refl)].
Defined.

(** Case analysis over every branch of [handleCall]. *)
Ltac handleCall_cases :=
  unfold handleCall, vapiStart;
  repeat match goal with
         | |- context [match ?x with _ => _ end] => destruct x eqn:?
         end.

Lemma handleCall_messages p r s :
  messages (fst (handleCall p r s)) = messages s.
Proof. handleCall_cases; reflexivity. Qed.

Lemma handleCall_no_submission p r s :
  filter isSubmission (snd (handleCall p r s)) = [].
Proof. handleCall_cases; reflexivity. Qed.

Lemma handleCall_status p r s :
  callStatus (fst (handleCall p r s)) = callStatus s \/
  (callStatus (fst (handleCall p r s)) = CONNECTING /\
   exists c, credits s = Some c /\ 0 < c /\
             error r = None /\ fetchExpError r = None /\ experror r = None).
Proof.
  destruct (credits s) as [c |] eqn:Hc.
  - destruct (Z.leb_spec c 0) as [Hle | Hgt].
    + left. rewrite handleCall_guard; [reflexivity |].
      right. now exists c.
    + rewrite (handleCall_passes_guard p r s c Hc Hgt).
      destruct (fetchExpError r), (experror r), (error r);
        try (left; reflexivity).
      right. split; [reflexivity |]. exists c. repeat split; assumption.
  - left. rewrite handleCall_guard; [reflexivity | now left].
Qed.

Lemma fetchCreditsDone_keeps p r s :
  callStatus (fst (fetchCreditsDone p r s)) = callStatus s /\
  messages (fst (fetchCreditsDone p r s)) = messages s /\
  filter isSubmission (snd (fetchCreditsDone p r s)) = [] /\
  filter isPush (snd (fetchCreditsDone p r s)) = [].
Proof.
  unfold fetchCreditsDone.
  destruct (truthy (userId p)), (credits_error r); repeat split.
Qed.

Lemma CallStatus_eqb_eq a b : CallStatus_eqb a b = true <-> a = b.
Proof. destruct a, b; cbn; split; congruence. Qed.

Lemma CallStatus_eqb_refl a : CallStatus_eqb a a = true.
Proof. now destruct a. Qed.

Lemma depsChanged_same s s' :
  callStatus s' = callStatus s -> messages s' = messages s ->
  depsChanged s s' = false.
Proof.
  intros Hs Hm. unfold depsChanged.
  now rewrite Hs, Hm, CallStatus_eqb_refl, Nat.eqb_refl.
Qed.

Lemma depsChanged_status s s' :
  callStatus s <> callStatus s' -> depsChanged s s' = true.
Proof.
  intros H. unfold depsChanged.
  destruct (CallStatus_eqb (callStatus s) (callStatus s')) eqn:E;
    [| reflexivity].
  apply CallStatus_eqb_eq in E. contradiction.
Qed.

(** *** What a handler does to the dependencies of the effect *)

Lemma handle_messages p ev w :
  messages (agent (fst (handle p ev w))) = messages (agent w) ++ turnsOf [ev].
Proof.
  destruct ev; cbn; rewrite ?app_nil_r; try reflexivity.
  - unfold onMessage. destruct (isFinalTranscript m); cbn;
      now rewrite ?app_nil_r.
  - destruct (callButtonEnabled (agent w)); cbn; [| reflexivity].
    apply handleCall_messages.
  - now destruct (endButtonShown (agent w)).
  - apply fetchCreditsDone_keeps.
  - unfold feedbackSettled. now destruct (inflight w).
  - unfold feedbackRejected. now destruct (inflight w).
Qed.

Lemma feedbackEffect_agent p w :
  callStatus (agent (fst (feedbackEffect p w))) = callStatus (agent w) /\
  messages (agent (fst (feedbackEffect p w))) = messages (agent w) /\
  credits (agent (fst (feedbackEffect p w))) = credits (agent w).
Proof.
  unfold feedbackEffect.
  destruct (callStatus (agent w)) eqn:Hs, (messages (agent w)) eqn:Hm;
    try destruct (String.eqb (type p) "generate");
    cbn; rewrite ?Hs, ?Hm; repeat split.
Qed.

Lemma step_agent p ev w :
  callStatus (agent (fst (step p ev w))) =
    callStatus (agent (fst (handle p ev w))) /\
  messages (agent (fst (step p ev w))) =
    messages (agent (fst (handle p ev w))) /\
  credits (agent (fst (step p ev w))) =
    credits (agent (fst (handle p ev w))).
Proof.
  unfold step. destruct (handle p ev w) as [w1 t1]; cbn [fst].
  destruct (depsChanged (agent w) (agent w1)).
  - pose proof (feedbackEffect_agent p w1) as H.
    destruct (feedbackEffect p w1) as [w2 t2]. exact H.
  - repeat split.
Qed.

Lemma run_cons p ev evs w :
  run p (ev :: evs) w =
  (fst (run p evs (fst (step p ev w))),
   snd (step p ev w) ++ snd (run p evs (fst (step p ev w)))).
Proof.
  cbn [run]. destruct (step p ev w) as [w1 t1]; cbn [fst snd].
  now destruct (run p evs w1).
Qed.


Lemma turnsOf_app evs1 evs2 :
  turnsOf (evs1 ++ evs2) = turnsOf evs1 ++ turnsOf evs2.
Proof. unfold turnsOf. apply flat_map_app. Qed.

Lemma turnsOf_messages ms :
  turnsOf (map EvMessage ms) = map newMessage (filter isFinalTranscript ms).
Proof.
  induction ms as [| m ms IH]; [reflexivity |].
  cbn [map filter]. change (turnsOf (EvMessage m :: map EvMessage ms))
    with ((if isFinalTranscript m then [newMessage m] else [])
          ++ turnsOf (map EvMessage ms)).
  rewrite IH. now destruct (isFinalTranscript m).
Qed.

(** C8.  After any sequence of events the transcript is the transcript
    before it followed by one turn per final transcript message, in the
    order the messages arrived: earlier turns are never removed, moved or
    merged, and repeated messages give repeated turns.  For a sequence made
    of event-stream messages only, the new turns are the final transcripts
    among them, mapped one to one. *)
Theorem transcript_in_arrival_order p evs w :
  messages (agent (fst (run p evs w))) = messages (agent w) ++ turnsOf evs /\
  (forall ms,
     messages (agent (fst (run p (map EvMessage ms) w))) =
     messages (agent w) ++ map newMessage (filter isFinalTranscript ms)) /\
  (forall ev,
     exists suffix,
       messages (agent (fst (step p ev w))) = messages (agent w) ++ suffix).
Proof.
  assert (Hrun : forall l w0,
             messages (agent (fst (run p l w0))) =
             messages (agent w0) ++ turnsOf l).
  { induction l as [| ev l IH]; intros w0.
    - cbn. now rewrite app_nil_r.
    - rewrite run_cons; cbn [fst]. rewrite IH.
      destruct (step_agent p ev w0) as [_ [Hm _]].
      rewrite Hm, handle_messages, <- app_assoc.
      now rewrite <- turnsOf_app. }
  split; [apply Hrun |]. split.
  - intros ms. now rewrite Hrun, turnsOf_messages.
  - intros ev. exists (turnsOf [ev]).
    destruct (step_agent p ev w) as [_ [Hm _]].
    now rewrite Hm, handle_messages.
Qed.

(** ** The feedback trigger *)

Lemma submissions_app t1 t2 :
  submissions (t1 ++ t2) = (submissions t1 + submissions t2)%nat.
Proof. unfold submissions. now rewrite filter_app, length_app. Qed.

Lemma handle_no_submission p ev w :
  filter isSubmission (snd (handle p ev w)) = [].
Proof.
  destruct ev; cbn; try reflexivity.
  - destruct (callButtonEnabled (agent w)); cbn; [| reflexivity].
    apply handleCall_no_submission.
  - now destruct (endButtonShown (agent w)).
  - apply fetchCreditsDone_keeps.
  - unfold feedbackSettled. destruct (inflight w); [reflexivity |].
    cbn. now destruct (success r && truthy (result_feedbackId r)).
  - unfold feedbackRejected. now destruct (inflight w).
Qed.

Lemma feedbackEffect_trace p w :
  snd (feedbackEffect p w) =
  match callStatus (agent w) with
  | FINISHED =>
      if String.eqb (type p) "generate"
      then [RouterPush dashboardRoute]
      else [ConsoleLog "handleGenerateFeedback";
            CreateFeedback (interviewId p) (userId p) (messages (agent w))
              (feedbackId p);
            RouterPush (feedbackRoute p)]
  | _ => []
  end /\
  inflight (fst (feedbackEffect p w)) =
  match callStatus (agent w) with
  | FINISHED =>
      if String.eqb (type p) "generate" then inflight w else S (inflight w)
  | _ => inflight w
  end.
Proof.
  unfold feedbackEffect.
  destruct (callStatus (agent w));
    try destruct (String.eqb (type p) "generate"); split; reflexivity.
Qed.

(** The trace of a step in which the effect runs, and of one in which it
    does not. *)
Lemma step_trace p ev w :
  snd (step p ev w) =
  snd (handle p ev w) ++
  (if depsChanged (agent w) (agent (fst (handle p ev w)))
   then snd (feedbackEffect p (fst (handle p ev w)))
   else []).
Proof.
  unfold step. destruct (handle p ev w) as [w1 t1]; cbn [fst snd].
  destruct (depsChanged (agent w) (agent w1)).
  - now destruct (feedbackEffect p w1).
  - now rewrite app_nil_r.
Qed.

Lemma step_inflight p ev w :
  inflight (fst (step p ev w)) =
  if depsChanged (agent w) (agent (fst (handle p ev w)))
  then inflight (fst (feedbackEffect p (fst (handle p ev w))))
  else inflight (fst (handle p ev w)).
Proof.
  unfold step. destruct (handle p ev w) as [w1 t1]; cbn [fst snd].
  destruct (depsChanged (agent w) (agent w1)); [| reflexivity].
  now destruct (feedbackEffect p w1).
Qed.

Lemma generate_eqb_false p :
  type p <> "generate"%string -> String.eqb (type p) "generate" = false.
Proof. intros H. now apply String.eqb_neq. Qed.

(** The only events that bring the status to FINISHED are the agent's
    "call-end" and the End button, and neither touches the transcript. *)
Lemma enters_finished p ev w :
  callStatus (agent w) <> FINISHED ->
  callStatus (agent (fst (handle p ev w))) = FINISHED ->
  (ev = EvCallEnd \/ ev = ClickEnd) /\
  filter isPush (snd (handle p ev w)) = [] /\
  messages (agent (fst (handle p ev w))) = messages (agent w) /\
  inflight (fst (handle p ev w)) = inflight w.
Proof.
  intros Hnot Hfin. destruct ev; cbn in *; try congruence.
  - repeat split. now left.
  - unfold onMessage in Hfin.
    destruct (isFinalTranscript m); cbn in Hfin; congruence.
  - destruct (callButtonEnabled (agent w)); cbn in Hfin; [| congruence].
    destruct (handleCall_status p r (agent w)) as [H | [H _]]; congruence.
  - destruct (endButtonShown (agent w)); cbn in *; [| congruence].
    repeat split. now right.
  - destruct (fetchCreditsDone_keeps p r (agent w)) as [H _]. congruence.
  - unfold feedbackSettled in Hfin.
    destruct (inflight w); cbn in Hfin; congruence.
  - unfold feedbackRejected in Hfin.
    destruct (inflight w); cbn in Hfin; congruence.
Qed.

(** While the status is FINISHED a quiet event changes none of the effect's
    dependencies. *)
Lemma quiet_keeps_finished p ev w :
  callStatus (agent w) = FINISHED -> quiet ev = true ->
  callStatus (agent (fst (handle p ev w))) = FINISHED /\
  messages (agent (fst (handle p ev w))) = messages (agent w).
Proof.
  intros Hfin Hq. destruct ev; cbn in *; try discriminate;
    try (split; [first [assumption | reflexivity] | reflexivity]).
  - unfold onMessage. destruct (isFinalTranscript m); [discriminate |].
    now split.
  - unfold endButtonShown. rewrite Hfin. cbn. now split.
  - destruct (fetchCreditsDone_keeps p r (agent w)) as [H1 [H2 _]].
    split; congruence.
  - unfold feedbackSettled. destruct (inflight w); cbn; now split.
  - unfold feedbackRejected. destruct (inflight w); cbn; now split.
Qed.

Lemma quiet_step_silent p ev w :
  callStatus (agent w) = FINISHED -> quiet ev = true ->
  callStatus (agent (fst (step p ev w))) = FINISHED /\
  submissions (snd (step p ev w)) = 0%nat.
Proof.
  intros Hfin Hq.
  destruct (quiet_keeps_finished p ev w Hfin Hq) as [Hs Hm].
  destruct (step_agent p ev w) as [Hs' _]. split; [congruence |].
  rewrite step_trace, depsChanged_same by congruence.
  rewrite app_nil_r. unfold submissions.
  now rewrite handle_no_submission.
Qed.

Lemma quiet_run_silent p post :
  forall w, callStatus (agent w) = FINISHED -> forallb quiet post = true ->
            submissions (snd (run p post w)) = 0%nat.
Proof.
  induction post as [| ev post IH]; intros w Hfin Hq; [reflexivity |].
  cbn [forallb] in Hq. apply andb_true_iff in Hq as [Hq1 Hq2].
  destruct (quiet_step_silent p ev w Hfin Hq1) as [Hs H0].
  rewrite run_cons; cbn [snd]. rewrite submissions_app, H0.
  now apply IH.
Qed.

Lemma entering_step_submits p ev w :
  type p <> "generate"%string ->
  callStatus (agent w) <> FINISHED ->
  callStatus (agent (fst (step p ev w))) = FINISHED ->
  filter isSubmission (snd (step p ev w)) =
    [CreateFeedback (interviewId p) (userId p) (messages (agent w))
       (feedbackId p)] /\
  filter isPush (snd (step p ev w)) = [RouterPush (feedbackRoute p)] /\
  inflight (fst (step p ev w)) = S (inflight w).
Proof.
  intros Hty Hnot Hfin.
  destruct (step_agent p ev w) as [Hs _]. rewrite Hs in Hfin.
  destruct (enters_finished p ev w Hnot Hfin) as [_ [Hpush [Hm Hin]]].
  assert (Hdeps : depsChanged (agent w) (agent (fst (handle p ev w))) = true)
    by (apply depsChanged_status; congruence).
  destruct (feedbackEffect_trace p (fst (handle p ev w))) as [Ht Hi].
  rewrite Hfin, generate_eqb_false in Ht, Hi by assumption.
  rewrite step_trace, step_inflight, Hdeps, Ht, Hi, !filter_app.
  rewrite handle_no_submission, Hpush, Hm, Hin. now cbn.
Qed.

(** C4, as claimed, fails: in a session of type "interview" whose status
    becomes FINISHED once (the End button), a final transcript that arrives
    afterwards changes [messages], the effect runs again with the status
    still FINISHED, and [createFeedback] is called a second time. *)
Lemma late_transcript_submits_twice :
  String.eqb (type interviewProps) "generate" = false /\
  map (fun evs => callStatus (agent (fst (run interviewProps evs initialWorld))))
    [firstn 3 lateTranscriptSession; firstn 4 lateTranscriptSession;
     lateTranscriptSession] = [ACTIVE; FINISHED; FINISHED] /\
  submissions (snd (run interviewProps lateTranscriptSession initialWorld))
  = 2%nat.
Proof. repeat split. Qed.

(** C4, amended.  In a session whose type is not "generate", the step that
    brings the status to FINISHED attempts exactly one feedback submission,
    whatever the transcript holds; and when every later event is quiet (no
    final transcript arrives and the call is not started again) that
    submission remains the only one. *)
Theorem finished_submits_once p ev post w :
  type p <> "generate"%string ->
  callStatus (agent w) <> FINISHED ->
  callStatus (agent (fst (step p ev w))) = FINISHED ->
  forallb quiet post = true ->
  submissions (snd (step p ev w)) = 1%nat /\
  submissions (snd (run p (ev :: post) w)) = 1%nat.
Proof.
  intros Hty Hnot Hfin Hq.
  destruct (entering_step_submits p ev w Hty Hnot Hfin) as [Hsub _].
  assert (H1 : submissions (snd (step p ev w)) = 1%nat)
    by (unfold submissions; now rewrite Hsub).
  split; [exact H1 |].
  rewrite run_cons; cbn [snd]. rewrite submissions_app, H1.
  now rewrite (quiet_run_silent p post _ Hfin Hq).
Qed.

Lemma finished_submits_once_witness :
  submissions
    (snd (run interviewProps
            [EvCallEnd; EvMessage partialTurn; FeedbackSettled failedFeedback]
            initialWorld)) = 1%nat.
Proof.
  apply (finished_submits_once interviewProps EvCallEnd
           [EvMessage partialTurn; FeedbackSettled failedFeedback]
           initialWorld).
  - discriminate.
  - discriminate.
  - reflexivity.
  - reflexivity.
Defined.

Lemma generate_step_silent p ev w :
  type p = "generate"%string -> submissions (snd (step p ev w)) = 0%nat.
Proof.
  intros Hty. rewrite step_trace, submissions_app.
  unfold submissions at 1. rewrite handle_no_submission.
  destruct (depsChanged (agent w) (agent (fst (handle p ev w))));
    [| reflexivity].
  destruct (feedbackEffect_trace p (fst (handle p ev w))) as [Ht _].
  rewrite Ht, Hty.
  now destruct (callStatus (agent (fst (handle p ev w)))).
Qed.

(** C5.  In a session of type "generate" no event sequence ever makes the
    controller call [createFeedback], from any state; and the step that
    brings the status to FINISHED navigates to the dashboard route and
    nowhere else. *)
Theorem generate_never_submits p :
  type p = "generate"%string ->
  (forall evs w, submissions (snd (run p evs w)) = 0%nat) /\
  (forall ev w,
     callStatus (agent w) <> FINISHED ->
     callStatus (agent (fst (step p ev w))) = FINISHED ->
     filter isPush (snd (step p ev w)) = [RouterPush "/dashboard"] /\
     inflight (fst (step p ev w)) = inflight w).
Proof.
  intros Hty. split.
  - induction evs as [| ev evs IH]; intros w; [reflexivity |].
    rewrite run_cons; cbn [snd].
    now rewrite submissions_app, generate_step_silent, IH.
  - intros ev w Hnot Hfin.
    destruct (step_agent p ev w) as [Hs _]. rewrite Hs in Hfin.
    destruct (enters_finished p ev w Hnot Hfin) as [_ [Hpush [_ Hin]]].
    assert (Hdeps : depsChanged (agent w) (agent (fst (handle p ev w))) = true)
      by (apply depsChanged_status; congruence).
    destruct (feedbackEffect_trace p (fst (handle p ev w))) as [Ht Hi].
    rewrite Hfin, Hty in Ht, Hi. cbn in Ht, Hi.
    rewrite step_trace, step_inflight, Hdeps, Ht, Hi, filter_app, Hpush.
    now split.
Qed.

Lemma generate_never_submits_witness :
  submissions
    (snd (run generateProps
            [CreditsFetched okFetch; ClickCall okResponses; EvCallStart;
             EvMessage finalTurn; EvCallEnd; EvMessage finalTurn]
            initialWorld)) = 0%nat.
Proof.
  destruct (generate_never_submits generateProps eq_refl) as [Hnone _].
  apply Hnone.
Defined.

(** C6, as claimed, fails when the call of [createFeedback] itself rejects
    instead of resolving to a result: the feedback route has been pushed,
    but then nothing is logged and nothing redirects to the dashboard. *)
Lemma rejected_submission_is_not_handled :
  snd (run interviewProps rejectedSubmission initialWorld) =
  [ConsoleLog "handleGenerateFeedback";
   CreateFeedback (interviewId interviewProps) (userId interviewProps) []
     (feedbackId interviewProps);
   RouterPush "/dashboard/interview/i1/feedback"] /\
  snd (step interviewProps FeedbackRejected
         (fst (step interviewProps EvCallEnd initialWorld))) = [].
Proof. split; reflexivity. Qed.

Lemma truthy_false_iff o :
  truthy o = false <-> o = None \/ o = Some EmptyString.
Proof.
  destruct o as [[| a t] |]; cbn; split; auto; try discriminate.
  - intros [H | H]; discriminate.
Qed.

(** C6, amended.  In a session whose type is not "generate", the step that
    brings the status to FINISHED submits the transcript and pushes
    "/dashboard/interview/<interviewId>/feedback" at once, before the
    submission has settled and so whatever its outcome.  When the
    submission later resolves as failed (no success flag, or no feedback
    id, or an empty one) the controller logs "Error saving feedback" and
    pushes "/dashboard", and calls [createFeedback] no further time; when
    it resolves as successful the feedback route is pushed again.  When the
    call rejects, the controller does nothing more. *)
Theorem finished_navigates_to_feedback p :
  type p <> "generate"%string ->
  (forall ev w,
     callStatus (agent w) <> FINISHED ->
     callStatus (agent (fst (step p ev w))) = FINISHED ->
     filter isSubmission (snd (step p ev w)) =
       [CreateFeedback (interviewId p) (userId p) (messages (agent w))
          (feedbackId p)] /\
     filter isPush (snd (step p ev w)) =
       [RouterPush
          ("/dashboard/interview/" ++
           match interviewId p with
           | Some i => i
           | None => "undefined"
           end ++ "/feedback")%string] /\
     inflight (fst (step p ev w)) = S (inflight w)) /\
  (forall r w n,
     inflight w = S n ->
     success r = false \/ result_feedbackId r = None \/
     result_feedbackId r = Some EmptyString ->
     step p (FeedbackSettled r) w =
     ({| agent := agent w; inflight := n |},
      [ConsoleLog "Error saving feedback"; RouterPush "/dashboard"])) /\
  (forall r w n id,
     inflight w = S n ->
     success r = true -> result_feedbackId r = Some id ->
     id <> EmptyString ->
     step p (FeedbackSettled r) w =
     ({| agent := agent w; inflight := n |},
      [RouterPush
         ("/dashboard/interview/" ++
          match interviewId p with
          | Some i => i
          | None => "undefined"
          end ++ "/feedback")%string])) /\
  (forall w n,
     inflight w = S n ->
     step p FeedbackRejected w = ({| agent := agent w; inflight := n |}, [])).
Proof.
  intros Hty. split; [| split; [| split]].
  - intros ev w. now apply entering_step_submits.
  - intros r w n Hin Hr.
    assert (Hb : success r && truthy (result_feedbackId r) = false).
    { apply andb_false_iff.
      destruct Hr as [Hr | Hr]; [now left | right].
      now apply truthy_false_iff. }
    unfold step, handle, feedbackSettled.
    rewrite Hin, Hb. cbn [agent].
    now rewrite depsChanged_same.
  - intros r w n id Hin Hs Hid Hne.
    assert (Hb : success r && truthy (result_feedbackId r) = true).
    { rewrite Hs, Hid. destruct id; [now elim Hne | reflexivity]. }
    unfold step, handle, feedbackSettled.
    rewrite Hin, Hb. cbn [agent].
    now rewrite depsChanged_same.
  - intros w n Hin. unfold step, handle, feedbackRejected.
    rewrite Hin. cbn [agent]. now rewrite depsChanged_same.
Qed.

Lemma finished_navigates_to_feedback_witness :
  filter isPush (snd (step interviewProps EvCallEnd initialWorld)) =
    [RouterPush "/dashboard/interview/i1/feedback"] /\
  step interviewProps (FeedbackSettled failedFeedback)
    {| agent := setCallStatus FINISHED initialState; inflight := 1 |} =
  ({| agent := setCallStatus FINISHED initialState; inflight := 0 |},
   [ConsoleLog "Error saving feedback"; RouterPush "/dashboard"]).
Proof.
  assert (Hty : type interviewProps <> "generate"%string) by discriminate.
  destruct (finished_navigates_to_feedback interviewProps Hty)
    as [Henter [Hfail _]].
  split.
  - apply (Henter EvCallEnd initialWorld); [discriminate | reflexivity].
  - apply (Hfail failedFeedback
             {| agent := setCallStatus FINISHED initialState; inflight := 1 |}
             0%nat); [reflexivity | now left].
Defined.

(** ** The call status *)





(** ** The feedback page *)

(** C9.  When the lookup finds no interview record for the identifier, the
    page redirects to the dashboard route and produces no element; when it
    finds one, the page renders the feedback component for that identifier
    and that stored record. *)
Theorem FeedbackPage_redirects_or_renders (Interview : Type)
    (getInterviewById : string -> option Interview) (id : string) :
  (getInterviewById id = None ->
   FeedbackPage getInterviewById id = Redirect "/dashboard") /\
  (forall interview,
     getInterviewById id = Some interview ->
     FeedbackPage getInterviewById id = RenderFeedbackClient id interview).
Proof.
  unfold FeedbackPage. destruct (getInterviewById id) as [iv |].
  - split; [discriminate |]. intros interview H. now injection H as ->.
  - split; [reflexivity | discriminate].
Qed.

Lemma FeedbackPage_redirects_or_renders_witness :
  FeedbackPage sampleInterviews "nope" = Redirect "/dashboard" /\
  FeedbackPage sampleInterviews "i1" =
    RenderFeedbackClient "i1" "Frontend interview"%string.
Proof.
  split.
  - apply (FeedbackPage_redirects_or_renders string sampleInterviews "nope").
    reflexivity.
  - apply (FeedbackPage_redirects_or_renders string sampleInterviews "i1").
    reflexivity.
Defined.

(** * Further properties of the controller *)

(** ** State cells a handler leaves alone *)

Lemma handleCall_cells p r s :
  isSpeaking (fst (handleCall p r s)) = isSpeaking s /\
  lastMessage (fst (handleCall p r s)) = lastMessage s /\
  isLoadingCredits (fst (handleCall p r s)) = isLoadingCredits s.
Proof. handleCall_cases; repeat split. Qed.

Lemma fetchCreditsDone_cells p r s :
  isSpeaking (fst (fetchCreditsDone p r s)) = isSpeaking s /\
  lastMessage (fst (fetchCreditsDone p r s)) = lastMessage s /\
  filter isStoreRequest (snd (fetchCreditsDone p r s)) = [] /\
  filter isVapiStart (snd (fetchCreditsDone p r s)) = [].
Proof.
  unfold fetchCreditsDone.
  destruct (truthy (userId p)), (credits_error r); repeat split.
Qed.

Lemma feedbackEffect_cells p w :
  isSpeaking (agent (fst (feedbackEffect p w))) = isSpeaking (agent w) /\
  isLoadingCredits (agent (fst (feedbackEffect p w))) =
    isLoadingCredits (agent w) /\
  filter isStoreRequest (snd (feedbackEffect p w)) = [] /\
  filter isVapiStart (snd (feedbackEffect p w)) = [].
Proof.
  unfold feedbackEffect.
  destruct (callStatus (agent w)), (messages (agent w));
    try destruct (String.eqb (type p) "generate"); repeat split.
Qed.

Lemma step_cells p ev w :
  isSpeaking (agent (fst (step p ev w))) =
    isSpeaking (agent (fst (handle p ev w))) /\
  isLoadingCredits (agent (fst (step p ev w))) =
    isLoadingCredits (agent (fst (handle p ev w))).
Proof.
  unfold step. destruct (handle p ev w) as [w1 t1]; cbn [fst].
  destruct (depsChanged (agent w) (agent w1)); [| now split].
  destruct (feedbackEffect_cells p w1) as [H1 [H2 _]].
  now destruct (feedbackEffect p w1).
Qed.

Lemma world_eta w : {| agent := agent w; inflight := inflight w |} = w.
Proof. now destruct w. Qed.

Lemma depsChanged_refl s : depsChanged s s = false.
Proof. now apply depsChanged_same. Qed.

(** A handler that gives back the world it was given, with no request,
    makes the whole step do nothing. *)
Lemma step_idle p ev w :
  handle p ev w = (w, []) -> step p ev w = (w, []).
Proof.
  intros H. unfold step. rewrite H. now rewrite depsChanged_refl.
Qed.

Lemma click_on_disabled_button p r w :
  callButtonEnabled (agent w) = false -> step p (ClickCall r) w = (w, []).
Proof.
  intros H. apply step_idle. cbn. now rewrite H.
Qed.

Lemma click_without_credit p r w :
  (credits (agent w) = None \/
   exists c, credits (agent w) = Some c /\ c <= 0) ->
  step p (ClickCall r) w = (w, []).
Proof.
  intros H. apply step_idle. cbn.
  destruct (callButtonEnabled (agent w)); [| reflexivity].
  rewrite (handleCall_guard p r (agent w) H). unfold withAgent; cbn.
  now rewrite world_eta.
Qed.

(** ** Loading the balance *)

Lemma loading_disables_call s :
  isLoadingCredits s = true -> callButtonEnabled s = false.
Proof.
  intros H. unfold callButtonEnabled. rewrite H, orb_true_r.
  now rewrite andb_false_r.
Qed.

Lemma loading_step p ev w :
  isLoadingCredits (agent w) = true ->
  (truthy (userId p) = false \/ isCreditsFetched ev = false) ->
  isLoadingCredits (agent (fst (step p ev w))) = true /\
  filter isStoreRequest (snd (step p ev w)) = [] /\
  filter isVapiStart (snd (step p ev w)) = [].
Proof.
  intros Hload Hno.
  destruct (step_cells p ev w) as [_ Hl]. rewrite Hl.
  rewrite step_trace, !filter_app.
  assert (Heff : forall w1,
             filter isStoreRequest
               (if depsChanged (agent w) (agent w1)
                then snd (feedbackEffect p w1) else []) = [] /\
             filter isVapiStart
               (if depsChanged (agent w) (agent w1)
                then snd (feedbackEffect p w1) else []) = []).
  { intros w1. destruct (depsChanged (agent w) (agent w1)); [| now split].
    now destruct (feedbackEffect_cells p w1) as [_ [_ [H1 H2]]]. }
  destruct (Heff (fst (handle p ev w))) as [He1 He2]. rewrite He1, He2.
  rewrite !app_nil_r.
  destruct ev as [| | m | | | e | r | | r | r |]; cbn;
    try (repeat split; assumption).
  - unfold onMessage. destruct (isFinalTranscript m); repeat split; assumption.
  - rewrite (loading_disables_call _ Hload). repeat split; assumption.
  - destruct (endButtonShown (agent w)); repeat split; assumption.
  - destruct Hno as [Hno | Hno]; [| discriminate].
    unfold fetchCreditsDone. rewrite Hno. repeat split; assumption.
  - unfold feedbackSettled. destruct (inflight w); cbn;
      [repeat split; assumption |].
    destruct (success r && truthy (result_feedbackId r));
      repeat split; assumption.
  - unfold feedbackRejected. destruct (inflight w); repeat split; assumption.
Qed.

(** X1.  Until a response to the balance fetch has been handled - which
    never happens without a user id, because the fetch is then not made -
    the Call button stays disabled: no event sequence makes the controller
    send a request of [handleCall] to the data store or start a voice
    call. *)
Theorem no_call_while_loading p evs w :
  isLoadingCredits (agent w) = true ->
  (truthy (userId p) = false \/ existsb isCreditsFetched evs = false) ->
  isLoadingCredits (agent (fst (run p evs w))) = true /\
  filter isStoreRequest (snd (run p evs w)) = [] /\
  filter isVapiStart (snd (run p evs w)) = [].
Proof.
  revert w. induction evs as [| ev evs IH]; intros w Hload Hno.
  - now repeat split.
  - assert (Hev : truthy (userId p) = false \/ isCreditsFetched ev = false).
    { destruct Hno as [H | H]; [now left | right].
      cbn in H. now apply orb_false_iff in H as [H _]. }
    assert (Hrest : truthy (userId p) = false \/
                    existsb isCreditsFetched evs = false).
    { destruct Hno as [H | H]; [now left | right].
      cbn in H. now apply orb_false_iff in H as [_ H]. }
    destruct (loading_step p ev w Hload Hev) as [H1 [H2 H3]].
    destruct (IH _ H1 Hrest) as [I1 [I2 I3]].
    rewrite run_cons; cbn [fst snd].
    rewrite !filter_app, H2, H3, I2, I3. now repeat split.
Qed.

Lemma no_call_while_loading_witness :
  filter isVapiStart
    (snd (run interviewProps
            [ClickCall okResponses; EvCallStart; ClickCall okResponses]
            initialWorld)) = [].
Proof.
  apply (no_call_while_loading interviewProps
           [ClickCall okResponses; EvCallStart; ClickCall okResponses]
           initialWorld).
  - reflexivity.
  - right. reflexivity.
Defined.

Lemma handle_loading_done p ev w :
  isLoadingCredits (agent w) = false ->
  isLoadingCredits (agent (fst (handle p ev w))) = false.
Proof.
  intros H. destruct ev as [| | m | | | e | r | | r | r |]; cbn;
    try assumption.
  - unfold onMessage. now destruct (isFinalTranscript m).
  - destruct (callButtonEnabled (agent w)); cbn; [| assumption].
    destruct (handleCall_cells p r (agent w)) as [_ [_ Hl]]. congruence.
  - now destruct (endButtonShown (agent w)).
  - unfold fetchCreditsDone.
    destruct (truthy (userId p)), (credits_error r); cbn;
      first [assumption | reflexivity].
  - unfold feedbackSettled. now destruct (inflight w).
  - unfold feedbackRejected. now destruct (inflight w).
Qed.

(** X2.  Once the balance fetch has been answered, the loading flag never
    comes back: no later event, a second answer or a failed one included,
    sets [isLoadingCredits] to true again. *)
Theorem loading_never_resumes p evs w :
  isLoadingCredits (agent w) = false ->
  isLoadingCredits (agent (fst (run p evs w))) = false.
Proof.
  revert w. induction evs as [| ev evs IH]; intros w H; [exact H |].
  rewrite run_cons; cbn [fst]. apply IH.
  destruct (step_cells p ev w) as [_ Hl]. rewrite Hl.
  now apply handle_loading_done.
Qed.

Lemma loading_never_resumes_witness :
  isLoadingCredits
    (agent (fst (run interviewProps
                   [ClickCall okResponses; EvCallStart; EvCallEnd]
                   {| agent := withCredits 2; inflight := 0 |}))) = false.
Proof.
  apply (loading_never_resumes interviewProps
           [ClickCall okResponses; EvCallStart; EvCallEnd]
           {| agent := withCredits 2; inflight := 0 |}).
  reflexivity.
Defined.

(** ** The speaking indicator *)

Lemma handle_isSpeaking p ev w :
  isSpeaking (agent (fst (handle p ev w))) =
  speechAfter [ev] (isSpeaking (agent w)).
Proof.
  destruct ev as [| | m | | | e | r | | r | r |]; cbn; try reflexivity.
  - unfold onMessage. now destruct (isFinalTranscript m).
  - destruct (callButtonEnabled (agent w)); cbn; [| reflexivity].
    apply handleCall_cells.
  - now destruct (endButtonShown (agent w)).
  - apply fetchCreditsDone_cells.
  - unfold feedbackSettled. now destruct (inflight w).
  - unfold feedbackRejected. now destruct (inflight w).
Qed.

(** X3.  The speaking indicator shows what the latest "speech-start" or
    "speech-end" event said and nothing else: after any event sequence
    [isSpeaking] is true exactly when the most recent of the two was
    "speech-start" (and is unchanged when there was neither).  In
    particular the end of the call does not switch the indicator off. *)
Theorem speaking_follows_speech_events p evs w :
  isSpeaking (agent (fst (run p evs w))) =
    speechAfter evs (isSpeaking (agent w)) /\
  speakingIndicator (render (agent (fst (run p evs w)))) =
    speechAfter evs (isSpeaking (agent w)) /\
  isSpeaking (agent (fst (run p (evs ++ [EvSpeechStart; EvCallEnd]) w))) =
    true.
Proof.
  assert (H : forall l w0,
             isSpeaking (agent (fst (run p l w0))) =
             speechAfter l (isSpeaking (agent w0))).
  { induction l as [| ev l IH]; intros w0; [reflexivity |].
    rewrite run_cons; cbn [fst]. rewrite IH.
    destruct (step_cells p ev w0) as [Hs _].
    now rewrite Hs, handle_isSpeaking. }
  split; [apply H |]. split; [apply H |].
  rewrite H. unfold speechAfter. now rewrite fold_left_app.
Qed.

(** ** The line under the card *)

Lemma lineInSync_iff s :
  lineInSync s <->
  match messages s with
  | [] => True
  | m :: rest => lastMessage s = content (last rest m)
  end.
Proof.
  unfold lineInSync, render, latestTurn; cbn.
  destruct (messages s) as [| m rest]; cbn.
  - now split.
  - split; [now intros [= ->] | now intros ->].
Qed.

Lemma feedbackEffect_syncs p w : lineInSync (agent (fst (feedbackEffect p w))).
Proof.
  apply lineInSync_iff.
  destruct (feedbackEffect_agent p w) as [_ [Hm _]]. rewrite Hm.
  unfold feedbackEffect.
  destruct (messages (agent w)) as [| m rest]; [exact I |].
  destruct (callStatus (agent w));
    try destruct (String.eqb (type p) "generate"); reflexivity.
Qed.

Lemma handle_lastMessage p ev w :
  lastMessage (agent (fst (handle p ev w))) = lastMessage (agent w).
Proof.
  destruct ev as [| | m | | | e | r | | r | r |]; cbn; try reflexivity.
  - unfold onMessage. now destruct (isFinalTranscript m).
  - destruct (callButtonEnabled (agent w)); cbn; [| reflexivity].
    apply handleCall_cells.
  - now destruct (endButtonShown (agent w)).
  - apply fetchCreditsDone_cells.
  - unfold feedbackSettled. now destruct (inflight w).
  - unfold feedbackRejected. now destruct (inflight w).
Qed.

Lemma depsChanged_messages p ev w :
  depsChanged (agent w) (agent (fst (handle p ev w))) = false ->
  messages (agent (fst (handle p ev w))) = messages (agent w).
Proof.
  unfold depsChanged. intros H. apply orb_false_iff in H as [_ H].
  apply negb_false_iff, Nat.eqb_eq in H.
  rewrite handle_messages in *. rewrite length_app in H.
  destruct (turnsOf [ev]) as [| t ts]; [now rewrite app_nil_r |].
  cbn in H. lia.
Qed.

Lemma step_keeps_line p ev w :
  lineInSync (agent w) -> lineInSync (agent (fst (step p ev w))).
Proof.
  intros Hinv. unfold step.
  destruct (handle p ev w) as [w1 t1] eqn:Hh.
  destruct (depsChanged (agent w) (agent w1)) eqn:Hd.
  - pose proof (feedbackEffect_syncs p w1) as H.
    now destruct (feedbackEffect p w1).
  - cbn [fst]. apply lineInSync_iff. apply lineInSync_iff in Hinv.
    pose proof (depsChanged_messages p ev w) as Hm.
    pose proof (handle_lastMessage p ev w) as Hl.
    rewrite Hh in Hm, Hl. cbn [fst] in Hm, Hl.
    now rewrite (Hm Hd), Hl.
Qed.

(** X4.  The line under the card always shows the latest turn: in every
    state reached from one where the line and the transcript agree (the
    freshly mounted component is one), the line is absent when the
    transcript is empty and otherwise shows the content of its last
    turn. *)
Theorem line_shows_latest_turn p evs w :
  transcriptLine (render (agent w)) = latestTurn (messages (agent w)) ->
  transcriptLine (render (agent (fst (run p evs w)))) =
  latestTurn (messages (agent (fst (run p evs w)))).
Proof.
  revert w. induction evs as [| ev evs IH]; intros w H; [exact H |].
  rewrite run_cons; cbn [fst]. apply IH.
  now apply step_keeps_line.
Qed.

Lemma line_shows_latest_turn_witness :
  transcriptLine
    (render (agent (fst (run interviewProps
                           [EvMessage finalTurn; EvMessage partialTurn;
                            EvCallEnd]
                           initialWorld)))) = Some "hello"%string.
Proof.
  apply (line_shows_latest_turn interviewProps
           [EvMessage finalTurn; EvMessage partialTurn; EvCallEnd]
           initialWorld).
  reflexivity.
Defined.

(** ** Starting a call *)

Lemma callButtonEnabled_iff s :
  callButtonEnabled s = true <->
  callStatus s <> ACTIVE /\ credits s <> Some 0 /\ isLoadingCredits s = false.
Proof.
  unfold callButtonEnabled.
  rewrite andb_true_iff, !negb_true_iff, orb_false_iff.
  split.
  - intros [Hs [Hc Hl]]. repeat split; try assumption.
    + intros E. rewrite E in Hs. discriminate.
    + intros E. rewrite E in Hc. discriminate.
  - intros [Hs [Hc Hl]]. repeat split; try assumption.
    + destruct (callStatus s); try reflexivity. now elim Hs.
    + destruct (credits s) as [c |]; [| reflexivity].
      apply Z.eqb_neq. intros ->. now elim Hc.
Qed.

Lemma effect_idle_when_connecting p w :
  callStatus (agent w) = CONNECTING -> snd (feedbackEffect p w) = [].
Proof.
  intros H. destruct (feedbackEffect_trace p w) as [Ht _].
  now rewrite Ht, H.
Qed.

Lemma accepted_call_step p r w c :
  callButtonEnabled (agent w) = true ->
  credits (agent w) = Some c -> 0 < c ->
  error r = None -> fetchExpError r = None -> experror r = None ->
  snd (step p (ClickCall r) w) =
    [UsersUpdateCredits (jsSub c 1) (userId p) None;
     ProfilesSelectExperience (userId p) None;
     ProfilesUpdateExperience (newExperience r) (userId p) None;
     vapiStart p] /\
  callStatus (agent (fst (step p (ClickCall r) w))) = CONNECTING /\
  credits (agent (fst (step p (ClickCall r) w))) = Some (jsSub c 1).
Proof.
  intros Hen Hc Hpos He Hf Hx.
  destruct (step_agent p (ClickCall r) w) as [Hs [_ Hcr]].
  rewrite Hs, Hcr, step_trace. cbn [handle]. rewrite Hen.
  unfold withAgent; cbn [fst snd agent].
  rewrite (handleCall_passes_guard p r (agent w) c Hc Hpos), Hf, Hx, He.
  cbn [fst snd]. split; [| now split].
  destruct (depsChanged _ _); [| now rewrite app_nil_r].
  rewrite effect_idle_when_connecting by reflexivity.
  now rewrite app_nil_r.
Qed.

Lemma step_start_cases p ev w :
  (filter isVapiStart (snd (step p ev w)) = [] /\
   (isCreditsFetched ev = false ->
    credits (agent (fst (step p ev w))) = credits (agent w))) \/
  (exists r c,
     ev = ClickCall r /\ credits (agent w) = Some c /\ 0 < c /\
     snd (step p ev w) =
       [UsersUpdateCredits (jsSub c 1) (userId p) None;
        ProfilesSelectExperience (userId p) None;
        ProfilesUpdateExperience (newExperience r) (userId p) None;
        vapiStart p] /\
     callStatus (agent (fst (step p ev w))) = CONNECTING /\
     credits (agent (fst (step p ev w))) = Some (jsSub c 1)).
Proof.
  assert (Heff : forall w1,
             filter isVapiStart
               (if depsChanged (agent w) (agent w1)
                then snd (feedbackEffect p w1) else []) = []).
  { intros w1. destruct (depsChanged (agent w) (agent w1)); [| reflexivity].
    now destruct (feedbackEffect_cells p w1) as [_ [_ [_ H]]]. }
  destruct (step_agent p ev w) as [_ [_ Hcr]].
  destruct ev as [| | m | | | e | r | | r | r |];
    try (left; rewrite Hcr, step_trace, filter_app, Heff; cbn;
         split; [reflexivity | intros _; reflexivity]).
  - left. rewrite Hcr, step_trace, filter_app, Heff. cbn.
    split; [reflexivity | intros _].
    unfold onMessage. now destruct (isFinalTranscript m).
  - destruct (callButtonEnabled (agent w)) eqn:Hen.
    + destruct (credits (agent w)) as [c |] eqn:Hc.
      * destruct (Z.leb_spec c 0) as [Hle | Hgt].
        -- left. rewrite click_without_credit; [now split |].
           right. now exists c.
        -- destruct (error r) eqn:He, (fetchExpError r) eqn:Hf,
             (experror r) eqn:Hx;
             try (left; rewrite Hcr, step_trace, filter_app, Heff; cbn;
                  rewrite Hen; unfold withAgent; cbn;
                  rewrite (handleCall_passes_guard p r (agent w) c Hc Hgt),
                    ?He, ?Hf, ?Hx; cbn;
                  split; [reflexivity | intros _; now rewrite Hc]).
           right. exists r, c.
           split; [reflexivity |]. split; [reflexivity |].
           split; [assumption |].
           now apply accepted_call_step.
      * left. rewrite click_without_credit; [now split | now left].
    + left. rewrite click_on_disabled_button by assumption. now split.
  - left. rewrite Hcr, step_trace, filter_app, Heff. cbn.
    split; [| intros _]; now destruct (endButtonShown (agent w)).
  - left. rewrite step_trace, filter_app, Heff.
    destruct (fetchCreditsDone_cells p r (agent w)) as [_ [_ [_ H]]].
    cbn. rewrite H. split; [reflexivity | discriminate].
  - left. rewrite Hcr, step_trace, filter_app, Heff. cbn.
    unfold feedbackSettled. destruct (inflight w); cbn; [now split |].
    split; [| intros _; reflexivity].
    now destruct (success r && truthy (result_feedbackId r)).
  - left. rewrite Hcr, step_trace, filter_app, Heff. cbn.
    unfold feedbackRejected. destruct (inflight w); now split.
Qed.

(** ** The banner and the button *)

(** X8.  Whenever the out-of-credits banner is shown, a click on Call does
    nothing at all: the state is unchanged and no request is sent.  This
    includes the balance that is still unknown because its fetch failed,
    which the banner presents as no credits. *)
Theorem banner_means_call_is_idle p r w :
  outOfCreditsBanner (render (agent w)) = true ->
  step p (ClickCall r) w = (w, []).
Proof.
  unfold render; cbn. intros H. apply click_without_credit.
  destruct (credits (agent w)) as [c |]; [right | now left].
  exists c. split; [reflexivity |]. apply Z.eqb_eq in H. lia.
Qed.

Lemma banner_means_call_is_idle_witness :
  step interviewProps (ClickCall okResponses)
    (fst (step interviewProps
            (CreditsFetched
               {| data_credits := Some 5;
                  credits_error := Some "offline"%string |})
            initialWorld)) =
  (fst (step interviewProps
          (CreditsFetched
             {| data_credits := Some 5;
                credits_error := Some "offline"%string |})
          initialWorld), []).
Proof.
  apply (banner_means_call_is_idle interviewProps okResponses).
  reflexivity.
Defined.

(** X9.  With a negative balance the component shows no banner and an
    enabled Call button (only a balance of exactly 0 disables it), yet a
    click does nothing: the guard of [handleCall] rejects it without a
    request. *)
Theorem negative_balance_click_is_silent p r w c :
  credits (agent w) = Some c -> c < 0 ->
  callStatus (agent w) <> ACTIVE -> isLoadingCredits (agent w) = false ->
  outOfCreditsBanner (render (agent w)) = false /\
  (exists hidden label,
     actionButton (render (agent w)) = CallButton false hidden label) /\
  step p (ClickCall r) w = (w, []).
Proof.
  intros Hc Hneg Hs Hl. unfold render; cbn. rewrite Hc, Hl.
  assert (Hz : (c =? 0) = false) by (apply Z.eqb_neq; lia).
  rewrite Hz. split; [reflexivity |]. split.
  - destruct (callStatus (agent w)); cbn; try (eexists; eexists; reflexivity).
    now elim Hs.
  - apply click_without_credit. right. exists c. split; [assumption | lia].
Qed.

Lemma negative_balance_click_is_silent_witness :
  step interviewProps (ClickCall okResponses)
    {| agent := withCredits (-1); inflight := 0 |} =
  ({| agent := withCredits (-1); inflight := 0 |}, []).
Proof.
  apply (negative_balance_click_is_silent interviewProps okResponses
           {| agent := withCredits (-1); inflight := 0 |} (-1)).
  - reflexivity.
  - lia.
  - discriminate.
  - reflexivity.
Defined.

(** X10.  The face of the button follows the status: the End button is
    shown exactly while the call is ACTIVE; otherwise the Call button is
    shown, labelled ". . ." with the ping visible exactly while CONNECTING,
    and labelled "Call" with the ping hidden while INACTIVE or FINISHED.
    What the model lets a click reach agrees with what is rendered. *)
Theorem button_follows_status s :
  match actionButton (render s) with
  | EndButton => callStatus s = ACTIVE /\ endButtonShown s = true
  | CallButton disabled hidden label =>
      endButtonShown s = false /\
      callButtonEnabled s = negb disabled /\
      ((callStatus s = CONNECTING /\ hidden = false /\
        label = ". . ."%string) \/
       ((callStatus s = INACTIVE \/ callStatus s = FINISHED) /\
        hidden = true /\ label = "Call"%string))
  end.
Proof.
  unfold render, endButtonShown, callButtonEnabled; cbn.
  destruct (callStatus s); cbn.
  - split; [reflexivity | split; [reflexivity | right; repeat split; now left]].
  - split; [reflexivity | split; [reflexivity | left; now repeat split]].
  - now split.
  - split; [reflexivity | split; [reflexivity | right; repeat split; now right]].
Qed.

(** ** The status graph *)

Lemma step_status_cases p ev w :
  callStatus (agent (fst (step p ev w))) = callStatus (agent w) \/
  (ev = EvCallStart /\ callStatus (agent (fst (step p ev w))) = ACTIVE) \/
  (ev = EvCallEnd /\ callStatus (agent (fst (step p ev w))) = FINISHED) \/
  (ev = ClickEnd /\ callStatus (agent w) = ACTIVE /\
   callStatus (agent (fst (step p ev w))) = FINISHED) \/
  (exists r c,
     ev = ClickCall r /\ callStatus (agent w) <> ACTIVE /\
     credits (agent w) = Some c /\ 0 < c /\
     callStatus (agent (fst (step p ev w))) = CONNECTING).
Proof.
  destruct (step_agent p ev w) as [Hs _]. rewrite Hs.
  destruct ev as [| | m | | | e | r | | r | r |]; cbn;
    try (left; reflexivity).
  - right. left. now split.
  - right. right. left. now split.
  - left. unfold onMessage. now destruct (isFinalTranscript m).
  - destruct (callButtonEnabled (agent w)) eqn:Hen; cbn; [| now left].
    apply callButtonEnabled_iff in Hen as [Hact _].
    destruct (handleCall_status p r (agent w))
      as [Hsame | [Hcon [c [Hc [Hpos _]]]]]; [now left |].
    right. right. right. right. exists r, c. now repeat split.
  - unfold endButtonShown.
    destruct (CallStatus_eqb (callStatus (agent w)) ACTIVE) eqn:E; cbn;
      [| now left].
    apply CallStatus_eqb_eq in E. right. right. right. left. now repeat split.
  - left. apply fetchCreditsDone_keeps.
  - left. unfold feedbackSettled. now destruct (inflight w).
  - left. unfold feedbackRejected. now destruct (inflight w).
Qed.

(** X12.  INACTIVE is only the status of a component that has seen no call
    yet: once the status has left INACTIVE, no event sequence brings it
    back. *)
Theorem inactive_never_returns p evs w :
  callStatus (agent w) <> INACTIVE ->
  callStatus (agent (fst (run p evs w))) <> INACTIVE.
Proof.
  revert w. induction evs as [| ev evs IH]; intros w H; [exact H |].
  rewrite run_cons; cbn [fst]. apply IH.
  destruct (step_status_cases p ev w)
    as [E | [[_ E] | [[_ E] | [[_ [_ E]] | [r [c [_ [_ [_ [_ E]]]]]]]]]];
    rewrite E; first [assumption | discriminate].
Qed.

Lemma inactive_never_returns_witness :
  callStatus
    (agent (fst (run interviewProps
                   [EvCallEnd; ClickCall okResponses; EvSpeechEnd;
                    FeedbackSettled failedFeedback]
                   (fst (step interviewProps EvCallStart initialWorld)))))
  <> INACTIVE.
Proof.
  apply (inactive_never_returns interviewProps
           [EvCallEnd; ClickCall okResponses; EvSpeechEnd;
            FeedbackSettled failedFeedback]
           (fst (step interviewProps EvCallStart initialWorld))).
  vm_compute. discriminate.
Defined.

Lemma setCallStatus_same s : setCallStatus (callStatus s) s = s.
Proof. now destruct s. Qed.

(** X13.  An event that asserts the status the component already has is
    idle: "call-end" on a FINISHED session - such as the one the agent
    sends after the End button - and "call-start" on an ACTIVE one change
    nothing and send nothing; in particular no second submission. *)
Theorem repeated_status_event_is_idle p w :
  (callStatus (agent w) = FINISHED -> step p EvCallEnd w = (w, [])) /\
  (callStatus (agent w) = ACTIVE -> step p EvCallStart w = (w, [])).
Proof.
  split; intros H; apply step_idle; cbn; unfold withAgent; cbn;
    rewrite <- H, setCallStatus_same; now rewrite world_eta.
Qed.

Lemma repeated_status_event_is_idle_witness :
  step interviewProps EvCallEnd
    (fst (run interviewProps [EvCallStart; ClickEnd] initialWorld)) =
  (fst (run interviewProps [EvCallStart; ClickEnd] initialWorld), []).
Proof.
  apply (proj1 (repeated_status_event_is_idle interviewProps
                  (fst (run interviewProps [EvCallStart; ClickEnd]
                          initialWorld)))).
  reflexivity.
Defined.

(** ** When feedback is submitted, and where the controller navigates *)

Lemma turnsOf_single ev :
  turnsOf [ev] = if appendsTurn ev
                 then match ev with
                      | EvMessage m => [newMessage m]
                      | _ => []
                      end
                 else [].
Proof.
  destruct ev as [| | m | | | e | r | | r | r |]; try reflexivity.
  cbn. destruct (isFinalTranscript m); reflexivity.
Qed.

Lemma depsChanged_handle p ev w :
  depsChanged (agent w) (agent (fst (handle p ev w))) =
  negb (CallStatus_eqb (callStatus (agent w))
          (callStatus (agent (fst (handle p ev w))))) || appendsTurn ev.
Proof.
  unfold depsChanged. f_equal.
  rewrite handle_messages, length_app, turnsOf_single.
  destruct ev as [| | m | | | e | r | | r | r |]; cbn [appendsTurn];
    try (cbn [length]; now rewrite Nat.add_0_r, Nat.eqb_refl).
  destruct (isFinalTranscript m); cbn [length].
  - apply negb_true_iff, Nat.eqb_neq. lia.
  - now rewrite Nat.add_0_r, Nat.eqb_refl.
Qed.

(** X14.  In a session whose type is not "generate", a step calls
    [createFeedback] exactly when it ends with the status FINISHED and
    either the status was not FINISHED before or the event appended a turn
    to the transcript; it then calls it once, with the whole transcript as
    it is after the step, the interview, user and feedback ids of the
    props.  Every other step submits nothing. *)
Theorem step_submits_exactly_when p ev w :
  type p <> "generate"%string ->
  filter isSubmission (snd (step p ev w)) =
  if CallStatus_eqb (callStatus (agent (fst (step p ev w)))) FINISHED &&
     (negb (CallStatus_eqb (callStatus (agent w)) FINISHED) || appendsTurn ev)
  then [CreateFeedback (interviewId p) (userId p)
          (messages (agent (fst (step p ev w)))) (feedbackId p)]
  else [].
Proof.
  intros Hty.
  destruct (step_agent p ev w) as [Hs [Hm _]]. rewrite Hs, Hm.
  rewrite step_trace, filter_app, handle_no_submission, depsChanged_handle.
  destruct (feedbackEffect_trace p (fst (handle p ev w))) as [Ht _].
  rewrite Ht, (generate_eqb_false p Hty). cbn [app].
  destruct (callStatus (agent (fst (handle p ev w)))) eqn:Hb;
    cbn [CallStatus_eqb andb];
    now destruct (negb _ || appendsTurn ev).
Qed.

Lemma step_submits_exactly_when_witness :
  filter isSubmission
    (snd (step interviewProps (EvMessage finalTurn)
            (fst (step interviewProps EvCallEnd initialWorld)))) =
  [CreateFeedback (interviewId interviewProps) (userId interviewProps)
     [newMessage finalTurn] (feedbackId interviewProps)].
Proof.
  rewrite (step_submits_exactly_when interviewProps (EvMessage finalTurn)
             (fst (step interviewProps EvCallEnd initialWorld))).
  - reflexivity.
  - discriminate.
Defined.

Lemma handleCall_no_push p r s :
  filter isPush (snd (handleCall p r s)) = [].
Proof. handleCall_cases; reflexivity. Qed.

Lemma generate_step_pushes p ev w :
  type p = "generate"%string -> inflight w = 0%nat ->
  inflight (fst (step p ev w)) = 0%nat /\
  (filter isPush (snd (step p ev w)) = [] \/
   filter isPush (snd (step p ev w)) = [RouterPush "/dashboard"]).
Proof.
  intros Hty Hin.
  assert (Hh : inflight (fst (handle p ev w)) = 0%nat /\
               filter isPush (snd (handle p ev w)) = []).
  { destruct ev as [| | m | | | e | r | | r | r |]; cbn;
      try (now split).
    - destruct (callButtonEnabled (agent w)); cbn; [| now split].
      split; [assumption | apply handleCall_no_push].
    - destruct (endButtonShown (agent w)); now split.
    - split; [assumption | apply fetchCreditsDone_keeps].
    - unfold feedbackSettled. rewrite Hin. now split.
    - unfold feedbackRejected. rewrite Hin. now split. }
  destruct Hh as [Hh1 Hh2].
  rewrite step_inflight, step_trace, filter_app, Hh2.
  destruct (feedbackEffect_trace p (fst (handle p ev w))) as [Ht Hi].
  rewrite Hty in Ht, Hi. cbn in Ht, Hi.
  destruct (depsChanged _ _).
  - rewrite Ht, Hi.
    destruct (callStatus (agent (fst (handle p ev w)))); cbn; auto.
  - cbn. auto.
Qed.

(** X15.  A session of type "generate" that starts with no submission
    pending navigates to the dashboard route and to no other: whatever the
    events, every route the controller pushes is "/dashboard", and no
    submission ever becomes pending. *)
Theorem generate_navigates_to_dashboard_only p evs w :
  type p = "generate"%string -> inflight w = 0%nat ->
  inflight (fst (run p evs w)) = 0%nat /\
  forall route,
    In (RouterPush route) (snd (run p evs w)) -> route = "/dashboard"%string.
Proof.
  intros Hty. revert w.
  induction evs as [| ev evs IH]; intros w Hin.
  - split; [exact Hin | intros route []].
  - destruct (generate_step_pushes p ev w Hty Hin) as [H0 Hp].
    destruct (IH _ H0) as [I0 Ip].
    rewrite run_cons; cbn [fst snd]. split; [exact I0 |].
    intros route Hroute. apply in_app_or in Hroute as [Hroute | Hroute];
      [| now apply Ip].
    assert (Hf : In (RouterPush route) (filter isPush (snd (step p ev w))))
      by (apply filter_In; now split).
    destruct Hp as [Hp | Hp]; rewrite Hp in Hf.
    + destruct Hf.
    + destruct Hf as [Hf | []]. now injection Hf as <-.
Qed.

Lemma generate_navigates_to_dashboard_only_witness :
  inflight
    (fst (run generateProps
            [EvCallStart; EvCallEnd; FeedbackSettled failedFeedback;
             EvMessage finalTurn]
            initialWorld)) = 0%nat.
Proof.
  destruct (generate_navigates_to_dashboard_only generateProps
              [EvCallStart; EvCallEnd; FeedbackSettled failedFeedback;
               EvMessage finalTurn]
              initialWorld eq_refl eq_refl) as [H _].
  exact H.
Defined.

(** ** The questions handed to the interviewer *)

Lemma append_nil_r (t : string) : (t ++ EmptyString)%string = t.
Proof. induction t as [| a t IH]; cbn; [reflexivity | now rewrite IH]. Qed.

(** X16.  The questions variable given to the interviewer is empty exactly
    when the props carry no questions or an empty list of them; with at
    least one question it starts with the bullet of the first one, and a
    single question gives just its bullet, with no line break. *)
Theorem formattedQuestions_empty_iff p :
  (formattedQuestions p = EmptyString <->
   questions p = None \/ questions p = Some []) /\
  (forall q qs,
     questions p = Some (q :: qs) ->
     exists rest, formattedQuestions p = ("- " ++ q ++ rest)%string) /\
  (forall q,
     questions p = Some [q] -> formattedQuestions p = ("- " ++ q)%string).
Proof.
  unfold formattedQuestions. split; [| split].
  - destruct (questions p) as [[| q [| q' qs]] |]; cbn.
    + split; [now right | reflexivity].
    + split; [discriminate | intros [H | H]; discriminate].
    + split; [discriminate | intros [H | H]; discriminate].
    + split; [now left | reflexivity].
  - intros q qs ->. destruct qs as [| q' qs].
    + exists EmptyString. cbn. now rewrite append_nil_r.
    + eexists. reflexivity.
  - now intros q ->.
Qed.

Lemma formattedQuestions_empty_iff_witness :
  exists rest,
    formattedQuestions interviewProps = ("- Why Rocq?" ++ rest)%string.
Proof.
  destruct (formattedQuestions_empty_iff interviewProps) as [_ [Hfirst _]].
  apply (Hfirst "Why Rocq?"%string ["Why not?"%string]). reflexivity.
Defined.

(** ** Accounting for started calls *)

Lemma vapiStart_isVapiStart p : isVapiStart (vapiStart p) = true.
Proof. unfold vapiStart. now destruct (String.eqb (type p) "generate"). Qed.


(** X17.  Between two answers to the balance fetch, and as long as
    invocations of [handleCall] do not overlap, the balance the component
    holds goes down by exactly one for each voice call it starts and is
    changed by nothing else: from a balance of at most 2^53, after any
    event sequence without such an answer it is the balance before minus
    the number of starts sent. *)
Theorem balance_drops_once_per_start p evs w c :
  existsb isCreditsFetched evs = false ->
  credits (agent w) = Some c -> c <= 2 ^ 53 ->
  credits (agent (fst (run p evs w))) =
  Some (c - Z.of_nat (length (filter isVapiStart (snd (run p evs w))))).
Proof.
  revert w c. induction evs as [| ev evs IH]; intros w c Hno Hc Hmax.
  - cbn. rewrite Hc. f_equal. lia.
  - cbn in Hno. apply orb_false_iff in Hno as [Hev Hrest].
    rewrite run_cons; cbn [fst snd]. rewrite filter_app, length_app.
    destruct (step_start_cases p ev w)
      as [[Hnone Hkeep] | [r [c' [_ [Hc' [Hpos [Ht [_ Hafter]]]]]]]].
    + rewrite Hnone. cbn [length].
      rewrite (IH _ c Hrest); [reflexivity | | assumption].
      now rewrite (Hkeep Hev).
    + assert (c' = c) by congruence. subst c'.
      rewrite (jsSub_safe c Hpos Hmax) in Hafter.
      rewrite (IH _ (c - 1) Hrest Hafter) by lia. rewrite Ht.
      cbn [filter isVapiStart].
      rewrite vapiStart_isVapiStart. cbn [length]. f_equal. lia.
Qed.

Lemma balance_drops_once_per_start_witness :
  credits
    (agent (fst (run interviewProps
                   [ClickCall okResponses; EvCallStart; EvCallEnd;
                    ClickCall okResponses; ClickCall okResponses]
                   {| agent := withCredits 2; inflight := 0 |}))) = Some 0.
Proof.
  rewrite (balance_drops_once_per_start interviewProps
             [ClickCall okResponses; EvCallStart; EvCallEnd;
              ClickCall okResponses; ClickCall okResponses]
             {| agent := withCredits 2; inflight := 0 |} 2).
  - reflexivity.
  - reflexivity.
  - reflexivity.
  - vm_compute. discriminate.
Defined.

(** X7.  A start that fails after the decrement went through is still
    charged for.  When the user's row holds the balance the component
    holds (positive, at most 2^53), the credit update succeeds and then the
    experience fetch or the experience update fails, no call is started
    and the component keeps the balance it had, while the row now holds
    one credit less than before and its experience is unchanged. *)
Theorem charged_without_start p r s c st :
  credits s = Some c -> 0 < c -> c <= 2 ^ 53 ->
  db_credits st = Some c ->
  error r = None ->
  (fetchExpError r <> None \/ experror r <> None) ->
  fst (handleCall p r s) = s /\
  filter isVapiStart (snd (handleCall p r s)) = [] /\
  db_credits (commit (snd (handleCall p r s)) st) = Some (c - 1) /\
  db_experience (commit (snd (handleCall p r s)) st) = db_experience st.
Proof.
  intros Hc Hpos Hmax Hrow He Hfail.
  rewrite (handleCall_passes_guard p r s c Hc Hpos), He.
  rewrite (jsSub_safe c Hpos Hmax).
  destruct (fetchExpError r) as [fe |] eqn:Hf.
  - repeat split.
  - destruct (experror r) as [xe |] eqn:Hx.
    + repeat split.
    + destruct Hfail as [H | H]; now elim H.
Qed.

Lemma charged_without_start_witness :
  db_credits
    (commit
       (snd (handleCall interviewProps
               {| error := None;
                  profileData := None;
                  fetchExpError := Some "no row"%string;
                  experror := None |}
               (withCredits 1)))
       {| db_credits := Some 1; db_experience := Some 40 |}) = Some 0.
Proof.
  destruct (charged_without_start interviewProps
              {| error := None;
                 profileData := None;
                 fetchExpError := Some "no row"%string;
                 experror := None |}
              (withCredits 1) 1
              {| db_credits := Some 1; db_experience := Some 40 |})
    as [_ [_ [H _]]].
  - reflexivity.
  - lia.
  - vm_compute. discriminate.
  - reflexivity.
  - reflexivity.
  - left. discriminate.
  - exact H.
Defined.

(** ** Overlapping invocations of [handleCall] *)

Lemma asyncRun_cons p aev aevs aw :
  asyncRun p (aev :: aevs) aw =
  (fst (asyncRun p aevs (fst (asyncStep p aev aw))),
   snd (asyncStep p aev aw) ++
   snd (asyncRun p aevs (fst (asyncStep p aev aw)))).
Proof.
  cbn [asyncRun]. destruct (asyncStep p aev aw) as [aw1 t1]; cbn [fst snd].
  now destruct (asyncRun p aevs aw1).
Qed.

Lemma step_withEffect p ev w : step p ev w = withEffect p w (handle p ev w).
Proof. unfold step, withEffect. now destruct (handle p ev w). Qed.

Lemma withEffect_trace p w h :
  snd (withEffect p w h) =
  snd h ++ (if depsChanged (agent w) (agent (fst h))
            then snd (feedbackEffect p (fst h)) else []).
Proof.
  unfold withEffect. destruct h as [w1 t1]; cbn [fst snd].
  destruct (depsChanged (agent w) (agent w1)).
  - now destruct (feedbackEffect p w1).
  - now rewrite app_nil_r.
Qed.

Lemma withEffect_agent p w h :
  callStatus (agent (fst (withEffect p w h))) = callStatus (agent (fst h)) /\
  messages (agent (fst (withEffect p w h))) = messages (agent (fst h)) /\
  credits (agent (fst (withEffect p w h))) = credits (agent (fst h)).
Proof.
  unfold withEffect. destruct h as [w1 t1]; cbn [fst snd].
  destruct (depsChanged (agent w) (agent w1)); [| now repeat split].
  pose proof (feedbackEffect_agent p w1) as H.
  now destruct (feedbackEffect p w1).
Qed.

Lemma withEffect_connecting p w h :
  callStatus (agent (fst h)) = CONNECTING ->
  snd (withEffect p w h) = snd h.
Proof.
  intros H. rewrite withEffect_trace.
  rewrite (effect_idle_when_connecting p (fst h) H).
  destruct (depsChanged _ _); now rewrite app_nil_r.
Qed.

(** The last answer of an invocation whose three calls went through. *)
Lemma answered_final p i r aw c ne :
  nth_error (calls aw) i = Some (AwaitUpdate c None ne) ->
  experror r = None ->
  snd (asyncStep p (CallAnswered i r) aw) =
    [ProfilesUpdateExperience ne (userId p) None; vapiStart p] /\
  callStatus (agent (mounted (fst (asyncStep p (CallAnswered i r) aw)))) =
    CONNECTING /\
  credits (agent (mounted (fst (asyncStep p (CallAnswered i r) aw)))) =
    match credits (agent (mounted aw)) with
    | Some v => Some (jsSub v 1)
    | None => None
    end /\
  calls (fst (asyncStep p (CallAnswered i r) aw)) =
    setCall i Returned (calls aw).
Proof.
  intros Hi Hx. cbn [asyncStep]. unfold callAnswered. rewrite Hi, Hx.
  cbn [fst snd mounted calls].
  destruct (withEffect_agent p (mounted aw)
              ({| agent :=
                    setCallStatus CONNECTING
                      (setCredits
                         (fun prev =>
                            match prev with
                            | Some v => Some (jsSub v 1)
                            | None => prev
                            end) (agent (mounted aw)));
                  inflight := inflight (mounted aw) |},
               [ProfilesUpdateExperience ne (userId p) None; vapiStart p]))
    as [Hs [_ Hc]].
  rewrite Hs, Hc, withEffect_connecting by reflexivity.
  cbn. repeat split. now destruct (credits (agent (mounted aw))).
Qed.

Lemma setCall_paid l : forall i old x,
  nth_error l i = Some old ->
  (length (filter isPaid (setCall i x l)) + (if isPaid old then 1 else 0) =
   length (filter isPaid l) + (if isPaid x then 1 else 0))%nat.
Proof.
  induction l as [| y l IH]; intros [| i] old x H; cbn in H;
    try discriminate.
  - injection H as ->. cbn.
    destruct (isPaid old), (isPaid x); cbn; lia.
  - cbn. specialize (IH i old x H).
    destruct (isPaid y); cbn; lia.
Qed.

Lemma feedbackEffect_no_charge p w :
  filter isCharge (snd (feedbackEffect p w)) = [].
Proof.
  destruct (feedbackEffect_trace p w) as [Ht _]. rewrite Ht.
  destruct (callStatus (agent w));
    try destruct (String.eqb (type p) "generate"); reflexivity.
Qed.

Lemma step_starts_charged p ev w :
  (length (filter isVapiStart (snd (step p ev w))) <=
   length (filter isCharge (snd (step p ev w))))%nat.
Proof.
  destruct (step_start_cases p ev w)
    as [[Hnone _] | [r [c [_ [_ [_ [Ht _]]]]]]].
  - rewrite Hnone. cbn. lia.
  - rewrite Ht. cbn. rewrite vapiStart_isVapiStart.
    destruct (isCharge (vapiStart p)); cbn; lia.
Qed.

Lemma asyncStep_starts_charged p aev aw :
  (length (filter isVapiStart (snd (asyncStep p aev aw))) +
   length (filter isPaid (calls (fst (asyncStep p aev aw)))) <=
   length (filter isCharge (snd (asyncStep p aev aw))) +
   length (filter isPaid (calls aw)))%nat.
Proof.
  destruct aev as [ev | | i r]; cbn [asyncStep].
  - cbn [fst snd calls]. pose proof (step_starts_charged p ev (mounted aw)).
    lia.
  - unfold callClicked.
    destruct (callButtonEnabled _); [| cbn; lia].
    destruct (credits _) as [c |]; [| cbn; lia].
    destruct (c <=? 0); cbn; [lia |].
    rewrite filter_app, length_app. cbn. lia.
  - destruct (nth_error (calls aw) i) as [[c | c err | c err ne |] |] eqn:Hi.
    + unfold callAnswered. rewrite Hi. cbn [fst snd calls].
      pose proof (setCall_paid (calls aw) i _ (AwaitFetch c (error r)) Hi) as H.
      cbn in H |- *. destruct (error r); cbn in H |- *; lia.
    + unfold callAnswered. rewrite Hi.
      destruct (fetchExpError r); cbn [fst snd calls].
      * pose proof (setCall_paid (calls aw) i _ Returned Hi) as H.
        cbn in H |- *. destruct err; cbn in H |- *; lia.
      * pose proof (setCall_paid (calls aw) i _
                      (AwaitUpdate c err (newExperience r)) Hi) as H.
        cbn in H |- *. destruct err; cbn in H |- *; lia.
    + destruct (experror r) as [xe |] eqn:Hx.
      * unfold callAnswered. rewrite Hi, Hx. cbn [fst snd calls].
        pose proof (setCall_paid (calls aw) i _ Returned Hi) as H.
        cbn in H |- *. destruct err; cbn in H |- *; lia.
      * destruct err as [ce |].
        -- unfold callAnswered. rewrite Hi, Hx. cbn [fst snd calls].
           pose proof (setCall_paid (calls aw) i _ Returned Hi) as H.
           cbn in H |- *. lia.
        -- destruct (answered_final p i r aw c ne Hi Hx) as [Ht [_ [_ Hc]]].
           cbn [asyncStep] in Ht, Hc. rewrite Ht, Hc.
           pose proof (setCall_paid (calls aw) i _ Returned Hi) as H.
           cbn in H |- *. rewrite vapiStart_isVapiStart.
           destruct (isCharge (vapiStart p)); cbn; lia.
    + unfold callAnswered. rewrite Hi. cbn. lia.
    + unfold callAnswered. rewrite Hi. cbn. lia.
Qed.

Lemma asyncRun_starts_charged p aevs :
  forall aw,
    (length (filter isVapiStart (snd (asyncRun p aevs aw))) +
     length (filter isPaid (calls (fst (asyncRun p aevs aw)))) <=
     length (filter isCharge (snd (asyncRun p aevs aw))) +
     length (filter isPaid (calls aw)))%nat.
Proof.
  induction aevs as [| aev aevs IH]; intros aw; [cbn; lia |].
  rewrite asyncRun_cons; cbn [fst snd].
  rewrite !filter_app, !length_app.
  pose proof (asyncStep_starts_charged p aev aw).
  pose proof (IH (fst (asyncStep p aev aw))). lia.
Qed.

(** X5.  Every started voice call has been charged for, however the
    invocations of [handleCall] overlap with each other and with other
    events: in a run that begins with no invocation pending, the number of
    [vapi.start] requests never exceeds the number of credit updates the
    data store has applied. *)
Theorem starts_are_charged p aevs aw :
  calls aw = [] ->
  (length (filter isVapiStart (snd (asyncRun p aevs aw))) <=
   length (filter isCharge (snd (asyncRun p aevs aw))))%nat.
Proof.
  intros Hnone. pose proof (asyncRun_starts_charged p aevs aw) as H.
  rewrite Hnone in H. cbn in H. lia.
Qed.

Lemma starts_are_charged_witness :
  (length
     (filter isVapiStart
        (snd (asyncRun interviewProps
                [Sync (CreditsFetched okFetch); CallClicked; CallClicked;
                 CallAnswered 0 okResponses; CallAnswered 1 okResponses;
                 CallAnswered 0 okResponses; CallAnswered 0 okResponses]
                initialAsyncWorld))) <=
   length
     (filter isCharge
        (snd (asyncRun interviewProps
                [Sync (CreditsFetched okFetch); CallClicked; CallClicked;
                 CallAnswered 0 okResponses; CallAnswered 1 okResponses;
                 CallAnswered 0 okResponses; CallAnswered 0 okResponses]
                initialAsyncWorld))))%nat.
Proof.
  apply (starts_are_charged interviewProps
           [Sync (CreditsFetched okFetch); CallClicked; CallClicked;
            CallAnswered 0 okResponses; CallAnswered 1 okResponses;
            CallAnswered 0 okResponses; CallAnswered 0 okResponses]
           initialAsyncWorld).
  reflexivity.
Defined.

Lemma asyncRun_app p aevs1 aevs2 aw :
  asyncRun p (aevs1 ++ aevs2) aw =
  (fst (asyncRun p aevs2 (fst (asyncRun p aevs1 aw))),
   snd (asyncRun p aevs1 aw) ++
   snd (asyncRun p aevs2 (fst (asyncRun p aevs1 aw)))).
Proof.
  revert aw. induction aevs1 as [| aev aevs1 IH]; intros aw.
  - cbn. now destruct (asyncRun p aevs2 aw).
  - rewrite <- app_comm_cons, !asyncRun_cons, IH. cbn [fst snd].
    now rewrite app_assoc.
Qed.

Lemma clicked_accepted p aw c :
  callButtonEnabled (agent (mounted aw)) = true ->
  credits (agent (mounted aw)) = Some c -> 0 < c ->
  asyncStep p CallClicked aw =
  ({| mounted := mounted aw; calls := calls aw ++ [AwaitDecrement c] |}, []).
Proof.
  intros Hen Hc Hpos. cbn [asyncStep]. unfold callClicked.
  rewrite Hen, Hc. destruct (Z.leb_spec c 0); [lia | reflexivity].
Qed.

Lemma setCall_nth l : forall i old x,
  nth_error l i = Some old -> nth_error (setCall i x l) i = Some x.
Proof.
  induction l as [| y l IH]; intros [| i] old x H; cbn in *;
    try discriminate; [reflexivity | eauto].
Qed.

Lemma setCall_twice l : forall i x y,
  setCall i y (setCall i x l) = setCall i y l.
Proof.
  induction l as [| z l IH]; intros [| i] x y; cbn; try reflexivity.
  now rewrite IH.
Qed.

(** An invocation whose three answers arrive one after the other, with
    no error. *)
Lemma invocation_completes p i r aw c :
  nth_error (calls aw) i = Some (AwaitDecrement c) ->
  error r = None -> fetchExpError r = None -> experror r = None ->
  snd (asyncRun p [CallAnswered i r; CallAnswered i r; CallAnswered i r] aw)
  = [UsersUpdateCredits (jsSub c 1) (userId p) None;
     ProfilesSelectExperience (userId p) None;
     ProfilesUpdateExperience (newExperience r) (userId p) None;
     vapiStart p] /\
  callStatus
    (agent (mounted (fst (asyncRun p [CallAnswered i r; CallAnswered i r;
                                      CallAnswered i r] aw)))) =
    CONNECTING /\
  credits
    (agent (mounted (fst (asyncRun p [CallAnswered i r; CallAnswered i r;
                                      CallAnswered i r] aw)))) =
    match credits (agent (mounted aw)) with
    | Some v => Some (jsSub v 1)
    | None => None
    end /\
  calls (fst (asyncRun p [CallAnswered i r; CallAnswered i r;
                          CallAnswered i r] aw)) =
    setCall i Returned (calls aw).
Proof.
  intros Hi He Hf Hx.
  pose proof (setCall_nth _ _ _ (AwaitFetch c None) Hi) as Hi1.
  pose proof (setCall_nth _ _ _ (AwaitUpdate c None (newExperience r)) Hi)
    as Hi2.
  destruct (answered_final p i r
              {| mounted := mounted aw;
                 calls := setCall i (AwaitUpdate c None (newExperience r))
                            (calls aw) |}
              c (newExperience r) Hi2 Hx)
    as [Ht [Hs [Hc Hl]]].
  cbn [mounted calls] in Hc, Hl. rewrite setCall_twice in Hl.
  rewrite !asyncRun_cons. cbn [asyncRun fst snd].
  assert (H1 : asyncStep p (CallAnswered i r) aw =
               ({| mounted := mounted aw;
                   calls := setCall i (AwaitFetch c None) (calls aw) |},
                [UsersUpdateCredits (jsSub c 1) (userId p) None])).
  { cbn [asyncStep]. unfold callAnswered. now rewrite Hi, He. }
  rewrite H1. cbn [fst snd].
  assert (H2 : asyncStep p (CallAnswered i r)
                 {| mounted := mounted aw;
                    calls := setCall i (AwaitFetch c None) (calls aw) |} =
               ({| mounted := mounted aw;
                   calls := setCall i (AwaitUpdate c None (newExperience r))
                              (calls aw) |},
                [ProfilesSelectExperience (userId p) None])).
  { cbn [asyncStep]. unfold callAnswered. cbn [mounted calls].
    rewrite Hi1, Hf. now rewrite setCall_twice. }
  rewrite H2. cbn [fst snd].
  rewrite Ht, Hs, Hc, Hl. rewrite app_nil_r. now repeat split.
Qed.

(** X6.  Two clicks on Call can overlap: the button stays enabled while
    an invocation waits, and the second click reads the balance the first
    one read.  With a positive balance [c] and no error, both invocations
    write the same value [c - 1] to the user's row, both add to the
    experience, both start a voice call, and the component's balance is
    decremented twice. *)
Theorem overlapping_clicks_read_same_balance p r1 r2 aw c :
  calls aw = [] ->
  callButtonEnabled (agent (mounted aw)) = true ->
  credits (agent (mounted aw)) = Some c -> 0 < c ->
  error r1 = None -> fetchExpError r1 = None -> experror r1 = None ->
  error r2 = None -> fetchExpError r2 = None -> experror r2 = None ->
  snd (asyncRun p
         [CallClicked; CallClicked;
          CallAnswered 0 r1; CallAnswered 0 r1; CallAnswered 0 r1;
          CallAnswered 1 r2; CallAnswered 1 r2; CallAnswered 1 r2] aw) =
    [UsersUpdateCredits (jsSub c 1) (userId p) None;
     ProfilesSelectExperience (userId p) None;
     ProfilesUpdateExperience (newExperience r1) (userId p) None;
     vapiStart p;
     UsersUpdateCredits (jsSub c 1) (userId p) None;
     ProfilesSelectExperience (userId p) None;
     ProfilesUpdateExperience (newExperience r2) (userId p) None;
     vapiStart p] /\
  credits
    (agent (mounted (fst (asyncRun p
         [CallClicked; CallClicked;
          CallAnswered 0 r1; CallAnswered 0 r1; CallAnswered 0 r1;
          CallAnswered 1 r2; CallAnswered 1 r2; CallAnswered 1 r2] aw)))) =
    Some (jsSub (jsSub c 1) 1) /\
  callStatus
    (agent (mounted (fst (asyncRun p
         [CallClicked; CallClicked;
          CallAnswered 0 r1; CallAnswered 0 r1; CallAnswered 0 r1;
          CallAnswered 1 r2; CallAnswered 1 r2; CallAnswered 1 r2] aw)))) =
    CONNECTING.
Proof.
  intros Hn Hen Hc Hpos He1 Hf1 Hx1 He2 Hf2 Hx2.
  change [CallClicked; CallClicked;
          CallAnswered 0 r1; CallAnswered 0 r1; CallAnswered 0 r1;
          CallAnswered 1 r2; CallAnswered 1 r2; CallAnswered 1 r2]
    with ([CallClicked; CallClicked] ++
          [CallAnswered 0 r1; CallAnswered 0 r1; CallAnswered 0 r1] ++
          [CallAnswered 1 r2; CallAnswered 1 r2; CallAnswered 1 r2]).
  assert (Hclicks : asyncRun p [CallClicked; CallClicked] aw =
                    ({| mounted := mounted aw;
                        calls := [AwaitDecrement c; AwaitDecrement c] |},
                     [])).
  { rewrite asyncRun_cons, (clicked_accepted p aw c Hen Hc Hpos).
    cbn [fst snd]. rewrite asyncRun_cons.
    rewrite (clicked_accepted p
               {| mounted := mounted aw;
                  calls := calls aw ++ [AwaitDecrement c] |} c Hen Hc Hpos).
    cbn. now rewrite Hn. }
  set (aw2 := {| mounted := mounted aw;
                 calls := [AwaitDecrement c; AwaitDecrement c] |}) in *.
  destruct (invocation_completes p 0 r1 aw2 c eq_refl He1 Hf1 Hx1)
    as [Ht1 [_ [Hc1 Hl1]]].
  cbn [mounted calls aw2 setCall] in Hc1, Hl1. rewrite Hc in Hc1.
  set (aw3 := fst (asyncRun p [CallAnswered 0 r1; CallAnswered 0 r1;
                               CallAnswered 0 r1] aw2)) in *.
  assert (Hi3 : nth_error (calls aw3) 1 = Some (AwaitDecrement c))
    by now rewrite Hl1.
  destruct (invocation_completes p 1 r2 aw3 c Hi3 He2 Hf2 Hx2)
    as [Ht2 [Hs2 [Hc2 _]]].
  rewrite Hc1 in Hc2.
  rewrite !asyncRun_app, Hclicks. cbn [fst snd app].
  fold aw3. rewrite Ht1, Ht2, Hc2, Hs2. now repeat split.
Qed.

Lemma overlapping_clicks_read_same_balance_witness :
  credits
    (agent (mounted (fst (asyncRun interviewProps
         [CallClicked; CallClicked;
          CallAnswered 0 okResponses; CallAnswered 0 okResponses;
          CallAnswered 0 okResponses;
          CallAnswered 1 okResponses; CallAnswered 1 okResponses;
          CallAnswered 1 okResponses]
         {| mounted := {| agent := withCredits 1; inflight := 0 |};
            calls := [] |})))) = Some (-1).
Proof.
  destruct (overlapping_clicks_read_same_balance interviewProps
              okResponses okResponses
              {| mounted := {| agent := withCredits 1; inflight := 0 |};
                 calls := [] |} 1)
    as [_ [H _]]; [reflexivity .. | exact H].
Defined.

Lemma callAnswered_status p i r aw :
  callStatus (agent (mounted (fst (asyncStep p (CallAnswered i r) aw)))) =
    callStatus (agent (mounted aw)) \/
  (exists c ne,
     nth_error (calls aw) i = Some (AwaitUpdate c None ne) /\
     experror r = None /\
     callStatus (agent (mounted (fst (asyncStep p (CallAnswered i r) aw)))) =
       CONNECTING).
Proof.
  destruct (nth_error (calls aw) i) as [[c | c err | c err ne |] |] eqn:Hi;
    try (left; cbn [asyncStep]; unfold callAnswered; rewrite Hi;
         try destruct (fetchExpError r); reflexivity).
  destruct (experror r) as [xe |] eqn:Hx;
    [left; cbn [asyncStep]; unfold callAnswered; now rewrite Hi, Hx |].
  destruct err as [ce |];
    [left; cbn [asyncStep]; unfold callAnswered; now rewrite Hi, Hx |].
  right. exists c, ne. split; [reflexivity |]. split; [reflexivity |].
  now destruct (answered_final p i r aw c ne Hi Hx) as [_ [Hs _]].
Qed.

(** X11.  With invocations of [handleCall] that overlap other events, the
    status changes only along these edges: the agent's "call-start" leads
    to ACTIVE and its "call-end" to FINISHED from every status; the End
    button leads from ACTIVE to FINISHED; an unbroken click on Call leads
    from every status but ACTIVE to CONNECTING; and the last answer of a
    pending invocation whose three calls went through leads to CONNECTING
    from every status - ACTIVE and FINISHED included, because line 182
    does not look at the status.  Every other step keeps the status. *)
Theorem overlapping_status_edges p :
  (forall aev aw,
     callStatus (agent (mounted (fst (asyncStep p aev aw)))) =
       callStatus (agent (mounted aw)) \/
     (aev = Sync EvCallStart /\
      callStatus (agent (mounted (fst (asyncStep p aev aw)))) = ACTIVE) \/
     (aev = Sync EvCallEnd /\
      callStatus (agent (mounted (fst (asyncStep p aev aw)))) = FINISHED) \/
     (aev = Sync ClickEnd /\ callStatus (agent (mounted aw)) = ACTIVE /\
      callStatus (agent (mounted (fst (asyncStep p aev aw)))) = FINISHED) \/
     (exists r,
        aev = Sync (ClickCall r) /\ callStatus (agent (mounted aw)) <> ACTIVE /\
        callStatus (agent (mounted (fst (asyncStep p aev aw)))) =
          CONNECTING) \/
     (exists i r c ne,
        aev = CallAnswered i r /\
        nth_error (calls aw) i = Some (AwaitUpdate c None ne) /\
        experror r = None /\
        callStatus (agent (mounted (fst (asyncStep p aev aw)))) =
          CONNECTING)) /\
  (forall aw i r c ne,
     nth_error (calls aw) i = Some (AwaitUpdate c None ne) ->
     experror r = None ->
     callStatus (agent (mounted (fst (asyncStep p (CallAnswered i r) aw)))) =
       CONNECTING).
Proof.
  split.
  - intros [ev | | i r] aw.
    + cbn [asyncStep fst mounted].
      destruct (step_status_cases p ev (mounted aw))
        as [E | [[-> E] | [[-> E] | [[-> [A E]] | [r [c [-> [A [_ [_ E]]]]]]]]]].
      * now left.
      * right. left. now split.
      * right. right. left. now split.
      * right. right. right. left. now repeat split.
      * right. right. right. right. left. exists r. now repeat split.
    + left. cbn [asyncStep]. unfold callClicked.
      destruct (callButtonEnabled _); [| reflexivity].
      destruct (credits _) as [c |]; [| reflexivity].
      now destruct (c <=? 0).
    + destruct (callAnswered_status p i r aw) as [E | [c [ne [Hi [Hx E]]]]].
      * now left.
      * right. right. right. right. right. exists i, r, c, ne.
        now repeat split.
  - intros aw i r c ne Hi Hx.
    now destruct (answered_final p i r aw c ne Hi Hx) as [_ [Hs _]].
Qed.

Lemma overlapping_status_edges_witness :
  callStatus
    (agent (mounted (fst (asyncRun interviewProps
         [Sync (ClickCall okResponses); CallClicked; Sync EvCallStart;
          CallAnswered 0 okResponses; CallAnswered 0 okResponses]
         {| mounted := {| agent := withCredits 2; inflight := 0 |};
            calls := [] |})))) = ACTIVE /\
  callStatus
    (agent (mounted (fst (asyncStep interviewProps
         (CallAnswered 0 okResponses)
         (fst (asyncRun interviewProps
            [Sync (ClickCall okResponses); CallClicked; Sync EvCallStart;
             CallAnswered 0 okResponses; CallAnswered 0 okResponses]
            {| mounted := {| agent := withCredits 2; inflight := 0 |};
               calls := [] |})))))) = CONNECTING.
Proof.
  split; [reflexivity |].
  apply (proj2 (overlapping_status_edges interviewProps)
           (fst (asyncRun interviewProps
              [Sync (ClickCall okResponses); CallClicked; Sync EvCallStart;
               CallAnswered 0 okResponses; CallAnswered 0 okResponses]
              {| mounted := {| agent := withCredits 2; inflight := 0 |};
                 calls := [] |}))
           0%nat okResponses 1 60).
  - reflexivity.
  - reflexivity.
Defined.

(** ** An unbroken click is a click followed by its answers *)

Lemma answered_nothing p i r aw :
  nth_error (calls aw) i = None \/ nth_error (calls aw) i = Some Returned ->
  asyncStep p (CallAnswered i r) aw = (aw, []).
Proof.
  intros [H | H]; cbn [asyncStep]; unfold callAnswered; now rewrite H.
Qed.

Lemma nth_error_last {A} (l : list A) (x : A) :
  nth_error (l ++ [x]) (length l) = Some x.
Proof. induction l as [| y l IH]; [reflexivity | exact IH]. Qed.

Lemma nth_error_end {A} (l : list A) : nth_error l (length l) = None.
Proof. induction l as [| y l IH]; [reflexivity | exact IH]. Qed.

Lemma withEffect_world p w w1 t :
  fst (withEffect p w (w1, t)) = fst (withEffect p w (w1, [])) /\
  snd (withEffect p w (w1, t)) = t ++ snd (withEffect p w (w1, [])).
Proof.
  unfold withEffect. destruct (depsChanged (agent w) (agent w1)).
  - destruct (feedbackEffect p w1). now split.
  - cbn. now rewrite app_nil_r.
Qed.

Lemma step_returns p ev w t :
  handle p ev w = ({| agent := agent w; inflight := inflight w |}, t) ->
  step p ev w = (w, t).
Proof.
  intros H. unfold step. rewrite H. cbn [agent].
  now rewrite depsChanged_refl, world_eta.
Qed.

Lemma answered_decrement p i r aw c :
  nth_error (calls aw) i = Some (AwaitDecrement c) ->
  asyncStep p (CallAnswered i r) aw =
  ({| mounted := mounted aw;
      calls := setCall i (AwaitFetch c (error r)) (calls aw) |},
   [UsersUpdateCredits (jsSub c 1) (userId p) (error r)]).
Proof. intros H. cbn [asyncStep]. unfold callAnswered. now rewrite H. Qed.

Lemma answered_fetch p i r aw c err :
  nth_error (calls aw) i = Some (AwaitFetch c err) ->
  asyncStep p (CallAnswered i r) aw =
  match fetchExpError r with
  | Some _ =>
      ({| mounted := mounted aw; calls := setCall i Returned (calls aw) |},
       [ProfilesSelectExperience (userId p) (fetchExpError r);
        ConsoleError "Failed to fetch latest experience:"])
  | None =>
      ({| mounted := mounted aw;
          calls := setCall i (AwaitUpdate c err (newExperience r))
                     (calls aw) |},
       [ProfilesSelectExperience (userId p) (fetchExpError r)])
  end.
Proof. intros H. cbn [asyncStep]. unfold callAnswered. now rewrite H. Qed.

Lemma answered_update p i r aw c err ne :
  nth_error (calls aw) i = Some (AwaitUpdate c err ne) ->
  asyncStep p (CallAnswered i r) aw =
  match experror r, err with
  | Some _, _ =>
      ({| mounted := mounted aw; calls := setCall i Returned (calls aw) |},
       [ProfilesUpdateExperience ne (userId p) (experror r);
        ConsoleError "Failed to update experience:"])
  | None, Some _ =>
      ({| mounted := mounted aw; calls := setCall i Returned (calls aw) |},
       [ProfilesUpdateExperience ne (userId p) (experror r);
        ConsoleError "Failed to decrement credits:"])
  | None, None =>
      ({| mounted :=
            fst (withEffect p (mounted aw)
                   ({| agent :=
                         setCallStatus CONNECTING
                           (setCredits
                              (fun prev =>
                                 match prev with
                                 | Some v => Some (jsSub v 1)
                                 | None => prev
                                 end) (agent (mounted aw)));
                       inflight := inflight (mounted aw) |},
                    [ProfilesUpdateExperience ne (userId p) (experror r);
                     vapiStart p]));
          calls := setCall i Returned (calls aw) |},
       snd (withEffect p (mounted aw)
              ({| agent :=
                    setCallStatus CONNECTING
                      (setCredits
                         (fun prev =>
                            match prev with
                            | Some v => Some (jsSub v 1)
                            | None => prev
                            end) (agent (mounted aw)));
                  inflight := inflight (mounted aw) |},
               [ProfilesUpdateExperience ne (userId p) (experror r);
                vapiStart p])))
  end.
Proof.
  intros H. cbn [asyncStep]. unfold callAnswered. rewrite H.
  now destruct (experror r), err.
Qed.

(** X18.  The unbroken click of the component model is the special case
    of the overlapping one in which nothing happens between a click and
    its answers: a click on Call followed at once by the three answers of
    its invocation leaves the component in the state, and the trace with
    the requests, that the unbroken click gives - whether the click is
    refused, fails at any of the three calls, or starts the voice call. *)
Theorem unbroken_click_is_click_and_answers p r aw :
  mounted
    (fst (asyncRun p
            [CallClicked;
             CallAnswered (length (calls aw)) r;
             CallAnswered (length (calls aw)) r;
             CallAnswered (length (calls aw)) r] aw)) =
    fst (step p (ClickCall r) (mounted aw)) /\
  snd (asyncRun p
         [CallClicked;
          CallAnswered (length (calls aw)) r;
          CallAnswered (length (calls aw)) r;
          CallAnswered (length (calls aw)) r] aw) =
    snd (step p (ClickCall r) (mounted aw)).
Proof.
  set (n := length (calls aw)).
  assert (Hrefused : asyncStep p CallClicked aw = (aw, []) ->
            step p (ClickCall r) (mounted aw) = (mounted aw, []) ->
            mounted
              (fst (asyncRun p
                      [CallClicked; CallAnswered n r; CallAnswered n r;
                       CallAnswered n r] aw)) =
              fst (step p (ClickCall r) (mounted aw)) /\
            snd (asyncRun p
                   [CallClicked; CallAnswered n r; CallAnswered n r;
                    CallAnswered n r] aw) =
              snd (step p (ClickCall r) (mounted aw))).
  { intros Ha Hs.
    assert (Hn : asyncStep p (CallAnswered n r) aw = (aw, []))
      by (apply answered_nothing; left; apply nth_error_end).
    rewrite !asyncRun_cons, Ha. cbn [asyncRun fst snd].
    repeat (rewrite Hn; cbn [fst snd]).
    rewrite Hs. now split. }
  destruct (callButtonEnabled (agent (mounted aw))) eqn:Hen.
  2:{ apply Hrefused.
      - cbn [asyncStep]. unfold callClicked. now rewrite Hen.
      - now apply click_on_disabled_button. }
  destruct (credits (agent (mounted aw))) as [c |] eqn:Hc.
  2:{ apply Hrefused.
      - cbn [asyncStep]. unfold callClicked. now rewrite Hen, Hc.
      - apply click_without_credit. now left. }
  destruct (Z.leb_spec c 0) as [Hle | Hpos].
  { apply Hrefused.
    - cbn [asyncStep]. unfold callClicked. rewrite Hen, Hc.
      destruct (Z.leb_spec c 0); [reflexivity | lia].
    - apply click_without_credit. right. now exists c. }
  clear Hrefused.
  pose proof (nth_error_last (calls aw) (AwaitDecrement c)) as Hi0.
  fold n in Hi0.
  pose proof (setCall_nth _ _ _ (AwaitFetch c (error r)) Hi0) as Hi1.
  pose proof (setCall_nth _ _ _
                (AwaitUpdate c (error r) (newExperience r)) Hi0) as Hi2.
  pose proof (setCall_nth _ _ _ Returned Hi0) as Hi3.
  assert (Hhandle : handle p (ClickCall r) (mounted aw) =
                    ({| agent := fst (handleCall p r (agent (mounted aw)));
                        inflight := inflight (mounted aw) |},
                     snd (handleCall p r (agent (mounted aw)))))
    by (cbn [handle]; now rewrite Hen).
  pose proof (handleCall_passes_guard p r (agent (mounted aw)) c Hc Hpos)
    as Hcall.
  assert (Hfailed : forall t,
            handleCall p r (agent (mounted aw)) = (agent (mounted aw), t) ->
            step p (ClickCall r) (mounted aw) = (mounted aw, t)).
  { intros t Ht. apply step_returns. now rewrite Hhandle, Ht. }
  rewrite !asyncRun_cons, (clicked_accepted p aw c Hen Hc Hpos).
  cbn [asyncRun fst snd app].
  rewrite (answered_decrement p n r
             {| mounted := mounted aw;
                calls := calls aw ++ [AwaitDecrement c] |} c Hi0).
  cbn [fst snd mounted calls].
  rewrite (answered_fetch p n r
             {| mounted := mounted aw;
                calls := setCall n (AwaitFetch c (error r))
                           (calls aw ++ [AwaitDecrement c]) |}
             c (error r) Hi1).
  cbn [mounted calls]. rewrite !setCall_twice.
  destruct (fetchExpError r) as [fe |] eqn:Hf.
  - cbn [fst snd].
    rewrite (answered_nothing p n r
               {| mounted := mounted aw;
                  calls := setCall n Returned
                             (calls aw ++ [AwaitDecrement c]) |}
               (or_intror Hi3)).
    rewrite (Hfailed _ Hcall). now split.
  - cbn [fst snd].
    rewrite (answered_update p n r
               {| mounted := mounted aw;
                  calls := setCall n
                             (AwaitUpdate c (error r) (newExperience r))
                             (calls aw ++ [AwaitDecrement c]) |}
               c (error r) (newExperience r) Hi2).
    cbn [mounted calls].
    destruct (experror r) as [xe |] eqn:Hx.
    + cbn [fst snd]. rewrite (Hfailed _ Hcall). now split.
    + destruct (error r) as [ce |] eqn:He.
      * cbn [fst snd]. rewrite (Hfailed _ Hcall). now split.
      * cbn [fst snd mounted].
        rewrite step_withEffect, Hhandle, Hcall. cbn [fst snd].
        assert (Hs : setCredits
                       (fun prev =>
                          match prev with
                          | Some v => Some (jsSub v 1)
                          | None => prev
                          end) (agent (mounted aw)) =
                     setCredits (fun _ => Some (jsSub c 1))
                       (agent (mounted aw)))
          by (unfold setCredits; now rewrite Hc).
        rewrite Hs.
        destruct (withEffect_world p (mounted aw)
                    {| agent :=
                         setCallStatus CONNECTING
                           (setCredits (fun _ => Some (jsSub c 1))
                              (agent (mounted aw)));
                       inflight := inflight (mounted aw) |}
                    [ProfilesUpdateExperience (newExperience r) (userId p)
                       None; vapiStart p]) as [Hw1 Ht1].
        destruct (withEffect_world p (mounted aw)
                    {| agent :=
                         setCallStatus CONNECTING
                           (setCredits (fun _ => Some (jsSub c 1))
                              (agent (mounted aw)));
                       inflight := inflight (mounted aw) |}
                    [UsersUpdateCredits (jsSub c 1) (userId p) None;
                     ProfilesSelectExperience (userId p) None;
                     ProfilesUpdateExperience (newExperience r) (userId p)
                       None; vapiStart p]) as [Hw2 Ht2].
        rewrite Hw1, Hw2, Ht1, Ht2. split; [reflexivity |].
        cbn [app]. now rewrite app_nil_r.
Qed.
